(** * Well-injection hydraulics: the calculation engine in Rocq

    A shallow embedding of [src/engine/WellHydraulics.ts] and of its twin
    [src/services/calculatorService.ts], with the properties the
    specification states about them, followed by further properties of the
    engine and of the parts of the user interface that call it and show
    its result.

    A JavaScript [number] is an IEEE-754 binary64 value: it is modelled by
    Rocq's primitive [float], whose [+ - * /] and comparisons are the same
    operations (round to nearest even, NaN unordered, [+0 = -0]).
    [Math.pow] and [Math.log10] are not fixed by ECMAScript beyond their
    special cases ("implementation-approximated"): the engine is
    parameterised by them through the class [MathLib]. *)

From Stdlib Require Import Floats ZArith Lia List String Ascii Bool Arith.
From Stdlib Require Import DecimalString DecimalNat.
From Stdlib Require Uint63.
Import ListNotations.

Set Warnings "-inexact-float".
Local Open Scope float_scope.

(** ** The fragment of JavaScript the engine relies on *)

Module JS.

(** [x > y] and [x >= y] on numbers. *)
Definition gtb (x y : float) : bool := y <? x.
Definition geb (x y : float) : bool := y <=? x.

(** [x === y] on numbers: false on NaN, true on [+0] and [-0]. *)
Definition strict_eq (x y : float) : bool := x =? y.

(** ToBoolean on a number: [0], [-0] and NaN are falsy. *)
Definition truthy (x : float) : bool := negb ((x =? 0) || is_nan x).

(** [x || d] on numbers. *)
Definition or_else (x d : float) : float := if truthy x then x else d.

Definition is_neg_zero (x : float) : bool :=
  match classify x with NZero => true | _ => false end.

(** [Math.max(a, b)]: NaN if either is NaN, and [+0] is larger than [-0]. *)
Definition Math_max (a b : float) : float :=
  if is_nan a then a
  else if is_nan b then b
  else if a <? b then b
  else if b <? a then a
  else if is_neg_zero a then b else a.

(** [Math.PI] *)
Definition Math_PI : float := 0x1.921fb54442d18p+1.

Definition Infinity : float := infinity.

(** Template-literal rendering of an array index (a non-negative integer). *)
Definition show_nat (n : nat) : string := NilEmpty.string_of_uint (Nat.to_uint n).

(** [s.startsWith(p)] *)
Definition startsWith (s p : string) : bool := String.prefix p s.

(** [xs.some(f)] *)
Definition some {A} (f : A -> bool) (xs : list A) : bool := existsb f xs.

End JS.

Notation "x >? y" := (JS.gtb x y) (at level 70, no associativity) : float_scope.
Notation "x >=? y" := (JS.geb x y) (at level 70, no associativity) : float_scope.

(** [Math.pow] and [Math.log10], as the host provides them. *)
Class MathLib := {
  Math_pow : float -> float -> float;
  Math_log10 : float -> float
}.

(** ** Exceptions: [throw new Error(msg)] *)

Inductive Result (A : Type) : Type :=
| Ok (a : A)
| Throw (msg : string).
Arguments Ok {A} a.
Arguments Throw {A} msg.

Definition bind {A B} (r : Result A) (k : A -> Result B) : Result B :=
  match r with
  | Ok a => k a
  | Throw msg => Throw msg
  end.

Notation "'let*' x ':=' r 'in' k" := (bind r (fun x => k))
  (at level 10, x name, r at level 100, k at level 200).

(** ** constants/physics.ts *)

Module Physics.
Definition GRAVITY : float := 9.81.
Definition PI : float := JS.Math_PI.
Definition LAMINAR_FLOW_LIMIT : float := 2300.
Definition TURBULENT_FLOW_START : float := 4000.
Definition SECONDS_PER_DAY : float := 86400.
Definition ENTRY_LOSS_COEFFICIENT : float := 0.5.
Definition DEFAULT_OPEN_HOLE_ROUGHNESS : float := 0.5.
End Physics.
Import Physics.

(** ** types.ts *)

Inductive FlowRegime : Type := Laminar | Transitional | Turbulent.

Definition FlowRegime_eqb (a b : FlowRegime) : bool :=
  match a, b with
  | Laminar, Laminar | Transitional, Transitional | Turbulent, Turbulent => true
  | _, _ => false
  end.

Module Segment.
Record t : Type := mk {
  id : float;
  diameter : float;
  length : float;
  roughness : float
}.
End Segment.

Module SegmentResult.
Record t : Type := mk {
  segmentNumber : nat;
  diameter : float;
  length : float;
  depthFrom : float;
  depthTo : float;
  velocity : float;
  reynoldsNumber : float;
  flowRegime : FlowRegime;
  frictionFactor : float;
  frictionLoss : float;
  hydrostaticGain : float;
  minorLoss : float;
  netPressureChange : float;
  inletPressure : float;
  outletPressure : float
}.
End SegmentResult.

Module CalculationResults.
Record t : Type := mk {
  segments : list SegmentResult.t;
  totalFrictionLoss : float;
  totalPressureDrop : float;
  bottomPressure : float;
  maxFlowRate : float;
  actualFlowRate : float;
  maxSegmentVelocity : float;
  maxVelocitySegment : nat;
  warnings : option (list string)
}.
End CalculationResults.

Module CalculationParams.
Record t : Type := mk {
  segments : list Segment.t;
  flowRate : float;
  injectionPressure : float;
  bottomholePressure : float;
  fluidDensity : float;
  fluidViscosity : float;
  wellDepth : float;
  openHoleDiameter : float
}.
End CalculationParams.

(** One entry of the local array [frictionLosses]. *)
Module FrictionEntry.
Record t : Type := mk {
  loss : float;
  regime : FlowRegime
}.
End FrictionEntry.

(** The local variables of [calculatePressureDrop] that the [for] loop
    updates. *)
Module Locals.
Record t : Type := mk {
  currentPressure : float;
  totalFrictionLoss : float;
  totalPressureDrop : float;
  segmentResults : list SegmentResult.t;
  warnings : list string;
  cumulativeDepth : float;
  maxVelocity : float;
  maxVelocitySegment : nat;
  frictionLosses : list FrictionEntry.t
}.
End Locals.

(** The three messages the engine produces. *)
Definition openHoleError : string :=
  "Open hole diameter must be a positive value.".

Definition invalidDiameterError (index : nat) : string :=
  "Invalid diameter for segment " ++ JS.show_nat (index + 1)
  ++ ". Diameter must be greater than 0.".

Definition invalidAreaError (index : nat) : string :=
  "Invalid segment diameter for segment " ++ JS.show_nat (index + 1)
  ++ "; area cannot be zero or negative.".

Definition cavitationWarning (index : nat) : string :=
  "Cavitation risk: Negative absolute pressure calculated in segment "
  ++ JS.show_nat (index + 1)
  ++ ". The results are physically unrealistic. This indicates the injection pressure is too low for the given flow rate, or the flow rate is too high.".

(** Reading [allSegments[i]] where the engine then reads a field of it. *)
Definition elementAt (allSegments : list Segment.t) (i : nat) : Result Segment.t :=
  match nth_error allSegments i with
  | Some s => Ok s
  | None => Throw "TypeError: Cannot read properties of undefined"
  end.

(** ** engine/WellHydraulics.ts *)

Module WellHydraulics.
Section Engine.
Context {M : MathLib}.

Definition calculateReynolds (velocity diameter density viscosity : float) : float :=
  if JS.strict_eq viscosity 0 || JS.strict_eq diameter 0 then 0
  else (density * velocity * diameter) / viscosity.

Definition calculateTurbulentFriction (Re relativeRoughness : float) : float :=
  let effectiveRoughness := JS.Math_max relativeRoughness 1e-10 in
  let logTerm := Math_log10 ((effectiveRoughness / 3.7) + (5.74 / Math_pow Re 0.9)) in
  let f := 0.25 / Math_pow logTerm 2 in
  f.

Definition calculateFrictionFactor (Re relativeRoughness : float) : float :=
  if Re <=? 0 then 0
  else if Re <? LAMINAR_FLOW_LIMIT then 64 / Re
  else if (Re >=? LAMINAR_FLOW_LIMIT) && (Re <? TURBULENT_FLOW_START) then
    let laminarF := 64 / LAMINAR_FLOW_LIMIT in
    let turbulentF := calculateTurbulentFriction TURBULENT_FLOW_START relativeRoughness in
    let fraction := (Re - LAMINAR_FLOW_LIMIT) / (TURBULENT_FLOW_START - LAMINAR_FLOW_LIMIT) in
    laminarF + fraction * (turbulentF - laminarF)
  else calculateTurbulentFriction Re relativeRoughness.

(** [segments.reduce((sum, seg) => sum + (seg.length || 0), 0)] *)
Definition totalSegmentLength (segments : list Segment.t) : float :=
  fold_left (fun sum seg => sum + JS.or_else (Segment.length seg) 0) segments 0.

Definition openHoleLength (p : CalculationParams.t) : float :=
  JS.Math_max 0 (CalculationParams.wellDepth p - totalSegmentLength (CalculationParams.segments p)).

(** Lines 140-152: the effective segment list. *)
Definition buildAllSegments (p : CalculationParams.t) : Result (list Segment.t) :=
  let allSegments := CalculationParams.segments p in
  if openHoleLength p >? 0.1 then
    if CalculationParams.openHoleDiameter p <=? 0 then Throw openHoleError
    else Ok (allSegments ++ [ Segment.mk (-1) (CalculationParams.openHoleDiameter p)
                                (openHoleLength p) DEFAULT_OPEN_HOLE_ROUGHNESS ])
  else Ok allSegments.

(** Lines 179-202: the minor loss of the segment at [index]. *)
Definition minorLossAt (fluidDensity Q : float) (allSegments : list Segment.t)
    (index : nat) (A V : float) : Result float :=
  let minorLoss := 0 in
  let minorLoss :=
    if Nat.eqb index 0
    then minorLoss + ENTRY_LOSS_COEFFICIENT * fluidDensity * Math_pow V 2 / 2
    else minorLoss in
  if Nat.ltb 0 index then
    let* prev := elementAt allSegments (index - 1)%nat in
    let prevD := Segment.diameter prev / 1000 in
    let prevA := PI * Math_pow (prevD / 2) 2 in
    if (A >? 0) && (prevA >? 0) && (Q >? 0) then
      let prevV := Q / prevA in
      if A <? prevA then
        let areaRatio := A / prevA in
        let Cc := 0.62 + 0.38 * Math_pow areaRatio 3 in
        let Kc := Math_pow ((1 / Cc) - 1) 2 in
        Ok (minorLoss + Kc * fluidDensity * Math_pow V 2 / 2)
      else if A >? prevA then
        let Ke := Math_pow (1 - (prevA / A)) 2 in
        Ok (minorLoss + Ke * fluidDensity * Math_pow prevV 2 / 2)
      else Ok minorLoss
    else Ok minorLoss
  else Ok minorLoss.

Definition flowRegimeOf (Re : float) : FlowRegime :=
  if Re <? LAMINAR_FLOW_LIMIT then Laminar
  else if Re <? TURBULENT_FLOW_START then Transitional
  else Turbulent.

(** Lines 155-240: one pass through the body of the [for] loop. *)
Definition iteration (p : CalculationParams.t) (Q : float)
    (allSegments : list Segment.t) (index : nat) (segment : Segment.t)
    (st : Locals.t) : Result Locals.t :=
  let fluidDensity := CalculationParams.fluidDensity p in
  let fluidViscosity := CalculationParams.fluidViscosity p in
  let D := Segment.diameter segment / 1000 in
  let L := Segment.length segment in
  if D <=? 0 then Throw (invalidDiameterError index) else
  let A := PI * Math_pow (D / 2) 2 in
  if A <=? 0 then Throw (invalidAreaError index) else
  let V := Q / A in
  let maxVelocity := if V >? Locals.maxVelocity st then V else Locals.maxVelocity st in
  let maxVelocitySegment :=
    if V >? Locals.maxVelocity st then (index + 1)%nat else Locals.maxVelocitySegment st in
  let Re := calculateReynolds V D fluidDensity fluidViscosity in
  let relativeRoughness := Segment.roughness segment / (D * 1000) in
  let f := calculateFrictionFactor Re relativeRoughness in
  let hf := if JS.strict_eq V 0 then 0
            else f * (L / D) * (Math_pow V 2 / (2 * GRAVITY)) in
  let frictionPressureLoss := fluidDensity * GRAVITY * hf in
  let hydrostaticGain := fluidDensity * GRAVITY * L in
  let* minorLoss := minorLossAt fluidDensity Q allSegments index A V in
  let inletPressure := Locals.currentPressure st in
  let netPressureChange := hydrostaticGain - frictionPressureLoss - minorLoss in
  let currentPressure := Locals.currentPressure st + netPressureChange in
  let hasCavitationWarning :=
    JS.some (fun w => JS.startsWith w "Cavitation risk:") (Locals.warnings st) in
  let warnings :=
    if (currentPressure <? 0) && negb hasCavitationWarning
    then Locals.warnings st ++ [cavitationWarning index]
    else Locals.warnings st in
  let depthFrom := Locals.cumulativeDepth st in
  let cumulativeDepth := Locals.cumulativeDepth st + L in
  let flowRegime := flowRegimeOf Re in
  let frictionLosses :=
    Locals.frictionLosses st ++ [FrictionEntry.mk frictionPressureLoss flowRegime] in
  let segmentResults :=
    if negb (JS.strict_eq (Segment.id segment) (-1)) then
      Locals.segmentResults st ++
      [ SegmentResult.mk (index + 1) (Segment.diameter segment) L depthFrom
          cumulativeDepth V Re flowRegime f
          (frictionPressureLoss / 1000) (hydrostaticGain / 1000) (minorLoss / 1000)
          (netPressureChange / 1000) (inletPressure / 1000) (currentPressure / 1000) ]
    else Locals.segmentResults st in
  Ok (Locals.mk currentPressure
        (Locals.totalFrictionLoss st + frictionPressureLoss)
        (Locals.totalPressureDrop st + (frictionPressureLoss + minorLoss))
        segmentResults warnings cumulativeDepth maxVelocity maxVelocitySegment
        frictionLosses).

(** The [for] loop from [index] on; [todo] is [allSegments.slice(index)]. *)
Fixpoint loop (p : CalculationParams.t) (Q : float) (allSegments : list Segment.t)
    (todo : list Segment.t) (index : nat) (st : Locals.t) : Result Locals.t :=
  match todo with
  | [] => Ok st
  | segment :: rest =>
      let* st' := iteration p Q allSegments index segment st in
      loop p Q allSegments rest (S index) st'
  end.

(** Lines 128-138: the locals before the loop. *)
Definition initialLocals (p : CalculationParams.t) : Locals.t :=
  Locals.mk (CalculationParams.injectionPressure p * 1000) 0 0 [] [] 0 0 0 [].

(** Lines 128-241: everything up to the end of the loop. *)
Definition march (p : CalculationParams.t) : Result Locals.t :=
  let Q := CalculationParams.flowRate p / SECONDS_PER_DAY in
  let* allSegments := buildAllSegments p in
  loop p Q allSegments allSegments 0 (initialLocals p).

(** [frictionLosses.reduce((max, current) => current.loss > max.loss ? current : max)],
    called on a non-empty array only. *)
Definition maxFrictionSegment (first : FrictionEntry.t) (rest : list FrictionEntry.t)
    : FrictionEntry.t :=
  fold_left (fun max current =>
               if FrictionEntry.loss current >? FrictionEntry.loss max
               then current else max) rest first.

(** Lines 243-249. *)
Definition dominantRegime (frictionLosses : list FrictionEntry.t) : FlowRegime :=
  match frictionLosses with
  | [] => Turbulent
  | first :: rest =>
      if FlowRegime_eqb (FrictionEntry.regime (maxFrictionSegment first rest)) Laminar
      then Laminar else Turbulent
  end.

Definition flowExponentOf (r : FlowRegime) : float :=
  if FlowRegime_eqb r Laminar then 1.0 else 2.0.

Definition availablePressureOf (p : CalculationParams.t) : float :=
  let totalHydrostatic :=
    CalculationParams.fluidDensity p * GRAVITY * CalculationParams.wellDepth p in
  (CalculationParams.injectionPressure p * 1000) + totalHydrostatic
  - (CalculationParams.bottomholePressure p * 1000).

(** Lines 243-274: what follows the loop. *)
Definition finish (p : CalculationParams.t) (st : Locals.t) : CalculationResults.t :=
  let flowRate := CalculationParams.flowRate p in
  let Q := flowRate / SECONDS_PER_DAY in
  let flowExponent := flowExponentOf (dominantRegime (Locals.frictionLosses st)) in
  let availablePressure := availablePressureOf p in
  let maxFlowRate :=
    if availablePressure <=? 0 then 0
    else if (Locals.totalPressureDrop st <=? 0) || JS.strict_eq Q 0 then JS.Infinity
    else flowRate * Math_pow (availablePressure / Locals.totalPressureDrop st)
                             (1 / flowExponent) in
  CalculationResults.mk
    (Locals.segmentResults st)
    (Locals.totalFrictionLoss st / 1000)
    (Locals.totalPressureDrop st / 1000)
    (Locals.currentPressure st / 1000)
    maxFlowRate
    flowRate
    (Locals.maxVelocity st)
    (Locals.maxVelocitySegment st)
    (if Nat.ltb 0 (List.length (Locals.warnings st))
     then Some (Locals.warnings st) else None).

Definition calculatePressureDrop (p : CalculationParams.t) : Result CalculationResults.t :=
  let* st := march p in
  Ok (finish p st).

End Engine.
End WellHydraulics.

(** ** services/calculatorService.ts

    The service class repeats the engine, statement for statement. *)

Module CalculatorService.
Section Engine.
Context {M : MathLib}.

Definition calculateReynolds (velocity diameter density viscosity : float) : float :=
  if JS.strict_eq viscosity 0 || JS.strict_eq diameter 0 then 0
  else (density * velocity * diameter) / viscosity.

Definition calculateTurbulentFriction (Re relativeRoughness : float) : float :=
  let effectiveRoughness := JS.Math_max relativeRoughness 1e-10 in
  let logTerm := Math_log10 ((effectiveRoughness / 3.7) + (5.74 / Math_pow Re 0.9)) in
  let f := 0.25 / Math_pow logTerm 2 in
  f.

Definition calculateFrictionFactor (Re relativeRoughness : float) : float :=
  if Re <=? 0 then 0
  else if Re <? LAMINAR_FLOW_LIMIT then 64 / Re
  else if (Re >=? LAMINAR_FLOW_LIMIT) && (Re <? TURBULENT_FLOW_START) then
    let laminarF := 64 / LAMINAR_FLOW_LIMIT in
    let turbulentF := calculateTurbulentFriction TURBULENT_FLOW_START relativeRoughness in
    let fraction := (Re - LAMINAR_FLOW_LIMIT) / (TURBULENT_FLOW_START - LAMINAR_FLOW_LIMIT) in
    laminarF + fraction * (turbulentF - laminarF)
  else calculateTurbulentFriction Re relativeRoughness.

(** [segments.reduce((sum, seg) => sum + (seg.length || 0), 0)] *)
Definition totalSegmentLength (segments : list Segment.t) : float :=
  fold_left (fun sum seg => sum + JS.or_else (Segment.length seg) 0) segments 0.

Definition openHoleLength (p : CalculationParams.t) : float :=
  JS.Math_max 0 (CalculationParams.wellDepth p - totalSegmentLength (CalculationParams.segments p)).

(** Lines 51-63: the effective segment list. *)
Definition buildAllSegments (p : CalculationParams.t) : Result (list Segment.t) :=
  let allSegments := CalculationParams.segments p in
  if openHoleLength p >? 0.1 then
    if CalculationParams.openHoleDiameter p <=? 0 then Throw openHoleError
    else Ok (allSegments ++ [ Segment.mk (-1) (CalculationParams.openHoleDiameter p)
                                (openHoleLength p) DEFAULT_OPEN_HOLE_ROUGHNESS ])
  else Ok allSegments.

(** Lines 90-113: the minor loss of the segment at [index]. *)
Definition minorLossAt (fluidDensity Q : float) (allSegments : list Segment.t)
    (index : nat) (A V : float) : Result float :=
  let minorLoss := 0 in
  let minorLoss :=
    if Nat.eqb index 0
    then minorLoss + ENTRY_LOSS_COEFFICIENT * fluidDensity * Math_pow V 2 / 2
    else minorLoss in
  if Nat.ltb 0 index then
    let* prev := elementAt allSegments (index - 1)%nat in
    let prevD := Segment.diameter prev / 1000 in
    let prevA := PI * Math_pow (prevD / 2) 2 in
    if (A >? 0) && (prevA >? 0) && (Q >? 0) then
      let prevV := Q / prevA in
      if A <? prevA then
        let areaRatio := A / prevA in
        let Cc := 0.62 + 0.38 * Math_pow areaRatio 3 in
        let Kc := Math_pow ((1 / Cc) - 1) 2 in
        Ok (minorLoss + Kc * fluidDensity * Math_pow V 2 / 2)
      else if A >? prevA then
        let Ke := Math_pow (1 - (prevA / A)) 2 in
        Ok (minorLoss + Ke * fluidDensity * Math_pow prevV 2 / 2)
      else Ok minorLoss
    else Ok minorLoss
  else Ok minorLoss.

Definition flowRegimeOf (Re : float) : FlowRegime :=
  if Re <? LAMINAR_FLOW_LIMIT then Laminar
  else if Re <? TURBULENT_FLOW_START then Transitional
  else Turbulent.

(** Lines 66-151: one pass through the body of the [for] loop. *)
Definition iteration (p : CalculationParams.t) (Q : float)
    (allSegments : list Segment.t) (index : nat) (segment : Segment.t)
    (st : Locals.t) : Result Locals.t :=
  let fluidDensity := CalculationParams.fluidDensity p in
  let fluidViscosity := CalculationParams.fluidViscosity p in
  let D := Segment.diameter segment / 1000 in
  let L := Segment.length segment in
  if D <=? 0 then Throw (invalidDiameterError index) else
  let A := PI * Math_pow (D / 2) 2 in
  if A <=? 0 then Throw (invalidAreaError index) else
  let V := Q / A in
  let maxVelocity := if V >? Locals.maxVelocity st then V else Locals.maxVelocity st in
  let maxVelocitySegment :=
    if V >? Locals.maxVelocity st then (index + 1)%nat else Locals.maxVelocitySegment st in
  let Re := calculateReynolds V D fluidDensity fluidViscosity in
  let relativeRoughness := Segment.roughness segment / (D * 1000) in
  let f := calculateFrictionFactor Re relativeRoughness in
  let hf := if JS.strict_eq V 0 then 0
            else f * (L / D) * (Math_pow V 2 / (2 * GRAVITY)) in
  let frictionPressureLoss := fluidDensity * GRAVITY * hf in
  let hydrostaticGain := fluidDensity * GRAVITY * L in
  let* minorLoss := minorLossAt fluidDensity Q allSegments index A V in
  let inletPressure := Locals.currentPressure st in
  let netPressureChange := hydrostaticGain - frictionPressureLoss - minorLoss in
  let currentPressure := Locals.currentPressure st + netPressureChange in
  let hasCavitationWarning :=
    JS.some (fun w => JS.startsWith w "Cavitation risk:") (Locals.warnings st) in
  let warnings :=
    if (currentPressure <? 0) && negb hasCavitationWarning
    then Locals.warnings st ++ [cavitationWarning index]
    else Locals.warnings st in
  let depthFrom := Locals.cumulativeDepth st in
  let cumulativeDepth := Locals.cumulativeDepth st + L in
  let flowRegime := flowRegimeOf Re in
  let frictionLosses :=
    Locals.frictionLosses st ++ [FrictionEntry.mk frictionPressureLoss flowRegime] in
  let segmentResults :=
    if negb (JS.strict_eq (Segment.id segment) (-1)) then
      Locals.segmentResults st ++
      [ SegmentResult.mk (index + 1) (Segment.diameter segment) L depthFrom
          cumulativeDepth V Re flowRegime f
          (frictionPressureLoss / 1000) (hydrostaticGain / 1000) (minorLoss / 1000)
          (netPressureChange / 1000) (inletPressure / 1000) (currentPressure / 1000) ]
    else Locals.segmentResults st in
  Ok (Locals.mk currentPressure
        (Locals.totalFrictionLoss st + frictionPressureLoss)
        (Locals.totalPressureDrop st + (frictionPressureLoss + minorLoss))
        segmentResults warnings cumulativeDepth maxVelocity maxVelocitySegment
        frictionLosses).

(** The [for] loop from [index] on; [todo] is [allSegments.slice(index)]. *)
Fixpoint loop (p : CalculationParams.t) (Q : float) (allSegments : list Segment.t)
    (todo : list Segment.t) (index : nat) (st : Locals.t) : Result Locals.t :=
  match todo with
  | [] => Ok st
  | segment :: rest =>
      let* st' := iteration p Q allSegments index segment st in
      loop p Q allSegments rest (S index) st'
  end.

(** Lines 39-49: the locals before the loop. *)
Definition initialLocals (p : CalculationParams.t) : Locals.t :=
  Locals.mk (CalculationParams.injectionPressure p * 1000) 0 0 [] [] 0 0 0 [].

(** Lines 39-152: everything up to the end of the loop. *)
Definition march (p : CalculationParams.t) : Result Locals.t :=
  let Q := CalculationParams.flowRate p / SECONDS_PER_DAY in
  let* allSegments := buildAllSegments p in
  loop p Q allSegments allSegments 0 (initialLocals p).

(** [frictionLosses.reduce((max, current) => current.loss > max.loss ? current : max)],
    called on a non-empty array only. *)
Definition maxFrictionSegment (first : FrictionEntry.t) (rest : list FrictionEntry.t)
    : FrictionEntry.t :=
  fold_left (fun max current =>
               if FrictionEntry.loss current >? FrictionEntry.loss max
               then current else max) rest first.

(** Lines 154-160. *)
Definition dominantRegime (frictionLosses : list FrictionEntry.t) : FlowRegime :=
  match frictionLosses with
  | [] => Turbulent
  | first :: rest =>
      if FlowRegime_eqb (FrictionEntry.regime (maxFrictionSegment first rest)) Laminar
      then Laminar else Turbulent
  end.

Definition flowExponentOf (r : FlowRegime) : float :=
  if FlowRegime_eqb r Laminar then 1.0 else 2.0.

Definition availablePressureOf (p : CalculationParams.t) : float :=
  let totalHydrostatic :=
    CalculationParams.fluidDensity p * GRAVITY * CalculationParams.wellDepth p in
  (CalculationParams.injectionPressure p * 1000) + totalHydrostatic
  - (CalculationParams.bottomholePressure p * 1000).

(** Lines 161-185: what follows the loop. *)
Definition finish (p : CalculationParams.t) (st : Locals.t) : CalculationResults.t :=
  let flowRate := CalculationParams.flowRate p in
  let Q := flowRate / SECONDS_PER_DAY in
  let flowExponent := flowExponentOf (dominantRegime (Locals.frictionLosses st)) in
  let availablePressure := availablePressureOf p in
  let maxFlowRate :=
    if availablePressure <=? 0 then 0
    else if (Locals.totalPressureDrop st <=? 0) || JS.strict_eq Q 0 then JS.Infinity
    else flowRate * Math_pow (availablePressure / Locals.totalPressureDrop st)
                             (1 / flowExponent) in
  CalculationResults.mk
    (Locals.segmentResults st)
    (Locals.totalFrictionLoss st / 1000)
    (Locals.totalPressureDrop st / 1000)
    (Locals.currentPressure st / 1000)
    maxFlowRate
    flowRate
    (Locals.maxVelocity st)
    (Locals.maxVelocitySegment st)
    (if Nat.ltb 0 (List.length (Locals.warnings st))
     then Some (Locals.warnings st) else None).

Definition calculatePressureDrop (p : CalculationParams.t) : Result CalculationResults.t :=
  let* st := march p in
  Ok (finish p st).

End Engine.
End CalculatorService.

(** ** A reference [MathLib]

    An executable [Math.pow] and [Math.log10] for evaluating the engine on
    concrete inputs. They follow ECMAScript on the special cases and are
    exact for the exponents 1, 2 and 0.5 (as fdlibm's [pow] is); elsewhere
    they approximate [exp (y * ln x)] to a few units in the last place. *)

Module ReferenceMath.

Definition LN2 : float := 0x1.62e42fefa39efp-1.
Definition LN10 : float := 0x1.26bb1bbb55516p+1.
Definition SQRT1_2 : float := 0x1.6a09e667f3bcdp-1.

(** [1/k + t*(1/(k+2) + t*(...))], [n+1] terms. *)
Fixpoint odd_series (n : nat) (t k : float) : float :=
  match n with
  | O => 1 / k
  | S n' => 1 / k + t * odd_series n' t (k + 2)
  end.

(** A small integer as a float. *)
Definition float_of_Z (z : Z) : float :=
  let a := of_uint63 (Uint63.of_Z (Z.abs z)) in
  if (z <? 0)%Z then - a else a.

(** Natural logarithm of a positive finite number. *)
Definition ln_pos (x : float) : float :=
  let '(m, e) := Z.frexp x in
  let '(m, e) := if m <? SQRT1_2 then (m * 2, (e - 1)%Z) else (m, e) in
  let z := (m - 1) / (m + 1) in
  float_of_Z e * LN2 + 2 * z * odd_series 14 (z * z) 1.

Definition ln (x : float) : float :=
  if is_nan x then x
  else if x <? 0 then nan
  else if x =? 0 then neg_infinity
  else if x =? infinity then infinity
  else ln_pos x.

(** [1 + r/k * (1 + r/(k+1) * (...))], [n] further terms. *)
Fixpoint exp_series (n : nat) (r k : float) : float :=
  match n with
  | O => 1
  | S n' => 1 + r / k * exp_series n' r (k + 1)
  end.

(** The integer a float holds, when it holds one. *)
Definition to_Z (x : float) : Z :=
  match Prim2SF x with
  | S754_finite s m e => let v := Z.shiftl (Zpos m) e in if s then (- v)%Z else v
  | _ => 0%Z
  end.

Definition round (x : float) : float := (x + 0x1.8p+52) - 0x1.8p+52.

Definition exp (x : float) : float :=
  if is_nan x then x
  else if 710 <? x then infinity
  else if x <? -746 then 0
  else
    let k := round (x / LN2) in
    let r := x - k * LN2 in
    Z.ldexp (exp_series 22 r 1) (to_Z k).

Definition is_integer (y : float) : bool :=
  (abs y >=? 0x1p+52) || (round y =? y).

Definition is_odd_integer (y : float) : bool :=
  is_integer y && negb (is_integer (y / 2)).

Definition pow (x y : float) : float :=
  if is_nan y then y
  else if y =? 0 then 1
  else if is_nan x then x
  else if y =? 1 then x
  else if y =? 2 then x * x
  else if x =? 0 then
    if 0 <? y then (if is_odd_integer y then x else 0)
    else (if is_odd_integer y then 1 / x else infinity)
  else if abs y =? infinity then
    if abs x =? 1 then nan
    else if Bool.eqb (1 <? abs x) (0 <? y) then infinity else 0
  else if x =? infinity then (if 0 <? y then infinity else 0)
  else if x =? neg_infinity then
    if 0 <? y then (if is_odd_integer y then neg_infinity else infinity)
    else (if is_odd_integer y then -0 else 0)
  else if x <? 0 then
    if is_odd_integer y then - exp (y * ln (- x))
    else if is_integer y then exp (y * ln (- x))
    else nan
  else if y =? 0.5 then sqrt x
  else exp (y * ln x).

Definition log10 (x : float) : float := ln x / LN10.

#[export] Instance reference : MathLib := {| Math_pow := pow; Math_log10 := log10 |}.

End ReferenceMath.

(** ** Vocabulary of the statements *)

(** *** The order of binary64 numbers

    [fkey] sends a number to a triple of integers whose lexicographic order
    is the order of the numbers; NaN has no key, and both zeros share one. *)

Definition fkey (x : float) : option (Z * Z * Z) :=
  match Prim2SF x with
  | S754_nan => None
  | S754_zero _ => Some (0, 0, 0)%Z
  | S754_infinity s => Some (if s then (-2) else 2, 0, 0)%Z
  | S754_finite s m e =>
      Some (if s then (-1, - e, - Zpos m)%Z else (1, e, Zpos m)%Z)
  end.

Definition lex_lt (a b : Z * Z * Z) : Prop :=
  let '(a1, a2, a3) := a in
  let '(b1, b2, b3) := b in
  (a1 < b1 \/ (a1 = b1 /\ (a2 < b2 \/ (a2 = b2 /\ a3 < b3))))%Z.

Definition lex_eq (a b : Z * Z * Z) : Prop :=
  let '(a1, a2, a3) := a in
  let '(b1, b2, b3) := b in
  (a1 = b1 /\ a2 = b2 /\ a3 = b3)%Z.

Definition flt (x y : float) : Prop :=
  match fkey x, fkey y with
  | Some a, Some b => lex_lt a b
  | _, _ => False
  end.

Definition feq (x y : float) : Prop :=
  match fkey x, fkey y with
  | Some a, Some b => lex_eq a b
  | _, _ => False
  end.

Definition fle (x y : float) : Prop := flt x y \/ feq x y.

(** *** Friction factor *)

(** The Swamee-Jain value as the specification writes it:
    [0.25 / (log10(max(rr, 1e-10)/3.7 + 5.74/Re^0.9))^2]. *)
Definition swameeJain {M : MathLib} (Re rr : float) : float :=
  0.25 / Math_pow (Math_log10 (JS.Math_max rr 1e-10 / 3.7 + 5.74 / Math_pow Re 0.9)) 2.

(** *** Segments and depths *)

Definition isUserSegment (s : Segment.t) : bool :=
  negb (JS.strict_eq (Segment.id s) (-1)).

(** The plain running sum of the segment lengths, from the surface. *)
Definition sumLengths (segments : list Segment.t) : float :=
  fold_left (fun sum seg => sum + Segment.length seg) segments 0.

(** What the per-segment list is expected to report for the segments
    [todo], the first of which has 0-based position [index] and starts at
    depth [depth]: number, diameter, length, depth-from, depth-to. *)
Fixpoint depthRows (depth : float) (index : nat) (todo : list Segment.t)
    : list (nat * float * float * float * float) :=
  match todo with
  | [] => []
  | s :: rest =>
      (if isUserSegment s
       then [ ((index + 1)%nat, Segment.diameter s, Segment.length s,
               depth, depth + Segment.length s) ]
       else [])
      ++ depthRows (depth + Segment.length s) (S index) rest
  end.

Definition rowOf (r : SegmentResult.t) : nat * float * float * float * float :=
  (SegmentResult.segmentNumber r, SegmentResult.diameter r, SegmentResult.length r,
   SegmentResult.depthFrom r, SegmentResult.depthTo r).

Definition rowFrom (row : nat * float * float * float * float) : float :=
  let '(_, _, _, from, _) := row in from.

Definition rowTo (row : nat * float * float * float * float) : float :=
  let '(_, _, _, _, to) := row in to.

(** *** The open hole *)

(** Well depth left below the tubing. *)
Definition residualLength (p : CalculationParams.t) : float :=
  CalculationParams.wellDepth p
  - WellHydraulics.totalSegmentLength (CalculationParams.segments p).

(** The synthetic segment of the specification. *)
Definition openHoleSegment (p : CalculationParams.t) : Segment.t :=
  Segment.mk (-1) (CalculationParams.openHoleDiameter p) (residualLength p)
    DEFAULT_OPEN_HOLE_ROUGHNESS.

(** *** The march, step by step *)

(** The locals after each pass of the loop, in order, for as long as the
    passes succeed. *)
Fixpoint trace {M : MathLib} (p : CalculationParams.t) (Q : float)
    (allSegments todo : list Segment.t) (index : nat) (st : Locals.t)
    : list Locals.t :=
  match todo with
  | [] => []
  | segment :: rest =>
      match WellHydraulics.iteration p Q allSegments index segment st with
      | Ok st' => st' :: trace p Q allSegments rest (S index) st'
      | Throw _ => []
      end
  end.

(** The running pressure (Pa) at the outlet of each effective segment. *)
Definition outletPressures {M : MathLib} (p : CalculationParams.t)
    (allSegments : list Segment.t) : list float :=
  map Locals.currentPressure
    (trace p (CalculationParams.flowRate p / SECONDS_PER_DAY)
       allSegments allSegments 0 (WellHydraulics.initialLocals p)).

(** 0-based position of the first negative pressure, counting from [index]. *)
Fixpoint firstNegative (index : nat) (pressures : list float) : option nat :=
  match pressures with
  | [] => None
  | x :: rest => if x <? 0 then Some index else firstNegative (S index) rest
  end.

(** *** The dominant segment *)

(** [e] has the largest friction loss of [l], and is the first to have it. *)
Definition largestFirst (e : FrictionEntry.t) (l : list FrictionEntry.t) : Prop :=
  exists l1 l2,
    l = l1 ++ e :: l2 /\
    Forall (fun y => flt (FrictionEntry.loss y) (FrictionEntry.loss e)) l1 /\
    Forall (fun y => fle (FrictionEntry.loss y) (FrictionEntry.loss e)) l2.

(** The exponent the specification prescribes: 1 when the segment with the
    largest friction loss is laminar, 2 otherwise (also without segments). *)
Definition exponentRule (l : list FrictionEntry.t) (flowExponent : float) : Prop :=
  (l = [] /\ flowExponent = 2)
  \/ (exists e, largestFirst e l /\
        flowExponent = match FrictionEntry.regime e with Laminar => 1 | _ => 2 end).

Definition numericLosses (l : list FrictionEntry.t) : Prop :=
  Forall (fun e => is_nan (FrictionEntry.loss e) = false) l.

(** *** Inputs that are numbers *)

(** [x] is not below zero: a NaN, a zero of either sign, or positive. *)
Definition notNegative (x : float) : Prop := (x <? 0) = false.

(** A positive number that is not infinite. *)
Definition finitePositive (x : float) : Prop :=
  (0 <? x) = true /\ (x <? infinity) = true.

(** ECMAScript fixes [Math.pow(+0, 2)] and [Math.pow(-0, 2)] to [+0]. *)
Definition powOfZero {M : MathLib} : Prop :=
  forall x, (x =? 0) = true -> Math_pow x 2 = 0.

(** The cross-section the engine computes for a segment. *)
Definition areaOf {M : MathLib} (s : Segment.t) : float :=
  PI * Math_pow (Segment.diameter s / 1000 / 2) 2.

(** Every cross-section the march can meet is a number. *)
Definition numericAreas {M : MathLib} (p : CalculationParams.t) : Prop :=
  Forall (fun s => is_nan (areaOf s) = false)
    (CalculationParams.segments p ++ [openHoleSegment p]).

(** The running pressure (Pa) below the effective segments when nothing
    flows: injection pressure plus the hydrostatic gain of each segment. *)
Definition staticPressure (p : CalculationParams.t) (allSegments : list Segment.t) : float :=
  fold_left
    (fun pressure s =>
       pressure + CalculationParams.fluidDensity p * GRAVITY * Segment.length s)
    allSegments (CalculationParams.injectionPressure p * 1000).

(** ** Sample inputs

    The first ones are those of the repository's tests. *)

(** [basicParams] of [__tests__/engine/WellHydraulics.test.ts]. *)
Definition basicParams : CalculationParams.t :=
  CalculationParams.mk [Segment.mk 1 100 100 0.046] 100 5000 15000 1000 0.001 100 150.

Definition withSegments (p : CalculationParams.t) (segments : list Segment.t)
    : CalculationParams.t :=
  CalculationParams.mk segments (CalculationParams.flowRate p)
    (CalculationParams.injectionPressure p) (CalculationParams.bottomholePressure p)
    (CalculationParams.fluidDensity p) (CalculationParams.fluidViscosity p)
    (CalculationParams.wellDepth p) (CalculationParams.openHoleDiameter p).

(** "should handle multiple segments" *)
Definition twoSegmentParams : CalculationParams.t :=
  withSegments basicParams [Segment.mk 1 100 50 0.046; Segment.mk 2 80 50 0.046].

(** "should add open hole section when well depth exceeds tubing length" *)
Definition openHoleParams : CalculationParams.t :=
  CalculationParams.mk [Segment.mk 1 100 100 0.046] 100 5000 15000 1000 0.001 200 150.

(** "should handle zero flow rate" of [services/calculatorService.test.ts]. *)
Definition zeroFlowTestParams : CalculationParams.t :=
  CalculationParams.mk [Segment.mk 1 100 1000 0.05] 0 5000 15000 1000 0.001 1000 0.

(** The same well at zero flow with a negative injection pressure. *)
Definition vacuumParams : CalculationParams.t :=
  CalculationParams.mk [Segment.mk 1 100 1000 0.05] 0 (-10000) 15000 1000 0.001 1000 0.

(** [basicParams] with a lower target pressure: the available pressure is
    positive. *)
Definition drivenParams : CalculationParams.t :=
  CalculationParams.mk [Segment.mk 1 100 100 0.046] 100 5000 5500 1000 0.001 100 150.

(** [drivenParams] with nothing flowing. *)
Definition idleParams : CalculationParams.t :=
  CalculationParams.mk [Segment.mk 1 100 100 0.046] 0 5000 5500 1000 0.001 100 150.

(** A first segment that carries the reserved id, and tubing longer than
    the well. *)
Definition reservedIdParams : CalculationParams.t :=
  CalculationParams.mk [Segment.mk (-1) 100 50 0.046; Segment.mk 1 100 200 0.046]
    100 5000 15000 1000 0.001 100 150.

(** The cavitation test with a narrow second segment and twice the rate:
    the pressure turns negative in the second segment. *)
Definition starvedParams : CalculationParams.t :=
  CalculationParams.mk [Segment.mk 1 100 10 0.046; Segment.mk 2 50 90 0.046]
    2000 10 15000 1000 0.001 100 150.

(** A well without tubing and without depth. *)
Definition emptyParams (flowRate : float) : CalculationParams.t :=
  CalculationParams.mk [] flowRate 5000 15000 1000 0.001 0 150.

(** One segment whose flow is laminar at 15.5 m3/day and transitional at
    15.7 m3/day, with 10 Pa of available pressure. *)
Definition thresholdParams (flowRate : float) : CalculationParams.t :=
  CalculationParams.mk [Segment.mk 1 100 1000 0.05] flowRate 0 9809.99 1000 0.001 1000 0.

(** ** Vocabulary of the further properties *)

(** *** The guards of the march *)

Inductive Verdict : Type := Valid | BadDiameter | BadArea.

(** The two guards at the head of the loop body (lines 159 and 162). *)
Definition guardOf {M : MathLib} (s : Segment.t) : Verdict :=
  if Segment.diameter s / 1000 <=? 0 then BadDiameter
  else if areaOf s <=? 0 then BadArea
  else Valid.

(** 0-based position and verdict of the first segment that fails a guard,
    counting from [index]. *)
Fixpoint firstInvalid {M : MathLib} (index : nat) (todo : list Segment.t)
    : option (nat * Verdict) :=
  match todo with
  | [] => None
  | s :: rest =>
      match guardOf s with
      | Valid => firstInvalid (S index) rest
      | v => Some (index, v)
      end
  end.

(** *** Per-segment quantities *)

(** The velocity of the fluid in a segment, [Q / A]. *)
Definition velocityOf {M : MathLib} (p : CalculationParams.t) (s : Segment.t) : float :=
  CalculationParams.flowRate p / SECONDS_PER_DAY / areaOf s.

Definition reynoldsOf {M : MathLib} (p : CalculationParams.t) (s : Segment.t) : float :=
  WellHydraulics.calculateReynolds (velocityOf p s) (Segment.diameter s / 1000)
    (CalculationParams.fluidDensity p) (CalculationParams.fluidViscosity p).

Definition relativeRoughnessOf (s : Segment.t) : float :=
  Segment.roughness s / (Segment.diameter s / 1000 * 1000).

(** The Darcy-Weisbach pressure loss (Pa) of a segment, lines 171-176. *)
Definition frictionPressureLossOf {M : MathLib} (p : CalculationParams.t) (s : Segment.t)
    : float :=
  let V := velocityOf p s in
  let f := WellHydraulics.calculateFrictionFactor (reynoldsOf p s) (relativeRoughnessOf s) in
  let hf := if JS.strict_eq V 0 then 0
            else f * (Segment.length s / (Segment.diameter s / 1000))
                 * (Math_pow V 2 / (2 * GRAVITY)) in
  CalculationParams.fluidDensity p * GRAVITY * hf.

(** Segments that the march cannot tell apart: same dimensions, and the
    same answer to [id !== -1]. *)
Definition sameGeometry (s s' : Segment.t) : Prop :=
  Segment.diameter s = Segment.diameter s' /\
  Segment.length s = Segment.length s' /\
  Segment.roughness s = Segment.roughness s' /\
  isUserSegment s = isUserSegment s'.

Definition withBottomholePressure (p : CalculationParams.t) (bottomholePressure : float)
    : CalculationParams.t :=
  CalculationParams.mk (CalculationParams.segments p) (CalculationParams.flowRate p)
    (CalculationParams.injectionPressure p) bottomholePressure
    (CalculationParams.fluidDensity p) (CalculationParams.fluidViscosity p)
    (CalculationParams.wellDepth p) (CalculationParams.openHoleDiameter p).

(** JavaScript's global [isFinite] on a number. *)
Definition isFinite (x : float) : bool := abs x <? infinity.

(** What the row [x] of the per-segment list says about the effective
    segment [s] at 0-based position [k]: everything in the row that does
    not depend on the pressure reached so far. *)
Definition reportsOn {M : MathLib} (p : CalculationParams.t) (all : list Segment.t)
    (k : nat) (s : Segment.t) (x : SegmentResult.t) : Prop :=
  SegmentResult.segmentNumber x = (k + 1)%nat /\
  SegmentResult.diameter x = Segment.diameter s /\
  SegmentResult.length x = Segment.length s /\
  SegmentResult.velocity x = velocityOf p s /\
  SegmentResult.reynoldsNumber x = reynoldsOf p s /\
  SegmentResult.flowRegime x = WellHydraulics.flowRegimeOf (reynoldsOf p s) /\
  SegmentResult.frictionFactor x =
    WellHydraulics.calculateFrictionFactor (reynoldsOf p s) (relativeRoughnessOf s) /\
  SegmentResult.frictionLoss x = frictionPressureLossOf p s / 1000 /\
  SegmentResult.hydrostaticGain x =
    CalculationParams.fluidDensity p * GRAVITY * Segment.length s / 1000 /\
  exists ml,
    WellHydraulics.minorLossAt (CalculationParams.fluidDensity p)
      (CalculationParams.flowRate p / SECONDS_PER_DAY) all k (areaOf s) (velocityOf p s)
      = Ok ml /\
    SegmentResult.minorLoss x = ml / 1000.

(** [m] and [k] are the largest velocity and its 1-based position as lines
    166-169 keep them after the velocities [vs]: nothing exceeds [m]; [k]
    is 0 with [m] still at its initial 0, or the first position whose
    velocity is [m], positive and not reached before. *)
Definition runningMaximum (vs : list float) (m : float) (k : nat) : Prop :=
  Forall (fun v => (m <? v) = false) vs /\
  match k with
  | O => m = 0
  | S j =>
      nth_error vs j = Some m /\ (0 <? m) = true /\
      Forall (fun v => (m <=? v) = false) (firstn j vs)
  end.

(** The rows [rows] pass the pressure on: the first starts at [inlet], each
    next one starts where the one before ended, and the last ends at
    [outlet] (kPa throughout). *)
Fixpoint pressureChain (inlet : float) (rows : list SegmentResult.t) (outlet : float)
    : Prop :=
  match rows with
  | [] => outlet = inlet
  | x :: rest =>
      SegmentResult.inletPressure x = inlet /\
      pressureChain (SegmentResult.outletPressure x) rest outlet
  end.

(** The friction losses of the segments [todo] (Pa) added to [acc] in
    order, as line 239 does. *)
Definition frictionSum {M : MathLib} (p : CalculationParams.t) (todo : list Segment.t)
    (acc : float) : float :=
  fold_left (fun sum s => sum + frictionPressureLossOf p s) todo acc.

(** ** The user interface

    The components that call the engine and show its result.  Text fields
    enter as the numbers [parseFloat] reads from them (NaN for a text that
    is no number); rendering is left out. *)

(** [Math.min(a, b)]: NaN if either is NaN, and [-0] is smaller than [+0]. *)
Definition Math_min (a b : float) : float :=
  if is_nan a then a
  else if is_nan b then b
  else if a <? b then a
  else if b <? a then b
  else if JS.is_neg_zero a then a else b.

(** constants/physics.ts, the erosion limits (m/s). *)
Definition VELOCITY_WARNING_LIMIT : float := 20.
Definition VELOCITY_ERROR_LIMIT : float := 25.

(** *** components/ProgressIndicator.tsx *)

Module ProgressIndicator.

Definition percentage (value max : float) : float :=
  Math_min (JS.Math_max ((value / max) * 100) 0) 100.

End ProgressIndicator.

(** *** components/ResultsTab.tsx *)

Module ResultsTab.

Inductive Status : Type := good | warning | error.

Inductive Color : Type := red | yellow | green | blue.

(** The status of the three cards. *)
Definition flowRateStatus (results : CalculationResults.t) : Status :=
  if CalculationResults.actualFlowRate results <=? CalculationResults.maxFlowRate results
  then good else error.

Definition maxVelocityStatus (results : CalculationResults.t) : Status :=
  if CalculationResults.maxSegmentVelocity results >? VELOCITY_ERROR_LIMIT then error
  else if CalculationResults.maxSegmentVelocity results >? VELOCITY_WARNING_LIMIT then warning
  else good.

Definition bottomPressureStatus (results : CalculationResults.t) (bottomholePressure : float)
    : Status :=
  if CalculationResults.bottomPressure results >=? bottomholePressure then good else warning.

(** The flow-capacity bar: its [max], its [color] and the percentage
    [ProgressIndicator] derives. *)
Definition flowCapacityMax (results : CalculationResults.t) : float :=
  if isFinite (CalculationResults.maxFlowRate results)
  then CalculationResults.maxFlowRate results
  else CalculationResults.actualFlowRate results * 2.

Definition flowCapacityColor (results : CalculationResults.t) : Color :=
  if negb (JS.strict_eq (CalculationResults.maxFlowRate results) JS.Infinity)
     && (CalculationResults.actualFlowRate results
           >? CalculationResults.maxFlowRate results * 0.9)
  then red else blue.

Definition flowCapacityPercentage (results : CalculationResults.t) : float :=
  ProgressIndicator.percentage (CalculationResults.actualFlowRate results)
    (flowCapacityMax results).

(** Whether the flow-rate suggestion is shown; it offers
    [results.maxFlowRate]. *)
Definition showsFlowRateSuggestion (results : CalculationResults.t) : bool :=
  (CalculationResults.actualFlowRate results >? CalculationResults.maxFlowRate results)
  && isFinite (CalculationResults.maxFlowRate results).

End ResultsTab.

(** *** App.tsx *)

Module App.

(** The state of the form: each text field as [parseFloat] reads it, and
    the segment list. *)
Record Fields : Type := mkFields {
  flowRate : float;
  wellDepth : float;
  injectionPressure : float;
  bottomholePressure : float;
  reservoirPressure : float;
  fluidDensity : float;
  fluidViscosity : float;
  openHoleDiameter : float;
  segments : list Segment.t
}.

(** The keys of the [errors] record; the three per-segment keys end in
    the segment's id. *)
Inductive ErrorKey : Type :=
| flowRateKey | wellDepthKey | injectionPressureKey | bottomholePressureKey
| reservoirPressureKey | fluidDensityKey | fluidViscosityKey | openHoleDiameterKey
| segment_diameter (id : float) | segment_length (id : float)
| segment_roughness (id : float)
| depthError.

Definition when (c : bool) (k : ErrorKey) : list ErrorKey := if c then [k] else [].

(** The validation effect: the keys it assigns, in order. *)
Definition validate (f : Fields) : list ErrorKey :=
  let totalSegmentLength :=
    fold_left (fun sum seg => sum + JS.or_else (Segment.length seg) 0) (segments f) 0 in
  let wellDepthNum := JS.or_else (wellDepth f) 0 in
  let openHoleLength := JS.Math_max 0 (wellDepthNum - totalSegmentLength) in
  when (is_nan (flowRate f) || (flowRate f <? 0)) flowRateKey
  ++ when (is_nan wellDepthNum || (wellDepthNum <=? 0)) wellDepthKey
  ++ when (is_nan (injectionPressure f)) injectionPressureKey
  ++ when (is_nan (bottomholePressure f)) bottomholePressureKey
  ++ when (is_nan (reservoirPressure f)) reservoirPressureKey
  ++ when (is_nan (fluidDensity f) || (fluidDensity f <=? 0)) fluidDensityKey
  ++ when (is_nan (fluidViscosity f) || (fluidViscosity f <=? 0)) fluidViscosityKey
  ++ when ((openHoleLength >? 0.1)
           && (is_nan (openHoleDiameter f) || (openHoleDiameter f <=? 0)))
       openHoleDiameterKey
  ++ flat_map (fun segment =>
        when (negb (JS.truthy (Segment.diameter segment))
              || (Segment.diameter segment <=? 0))
          (segment_diameter (Segment.id segment))
        ++ when (negb (JS.truthy (Segment.length segment))
                 || (Segment.length segment <=? 0))
             (segment_length (Segment.id segment))
        ++ when (Segment.roughness segment <? 0)
             (segment_roughness (Segment.id segment)))
       (segments f)
  ++ when (totalSegmentLength >? wellDepthNum) depthError.

(** The parameters [performCalculations] hands to the engine. *)
Definition paramsOf (f : Fields) : CalculationParams.t :=
  CalculationParams.mk (segments f)
    (JS.or_else (flowRate f) 0)
    (JS.or_else (injectionPressure f) 0)
    (JS.or_else (bottomholePressure f) 0)
    (JS.or_else (fluidDensity f) 1000)
    (JS.or_else (fluidViscosity f) 0.001)
    (JS.or_else (wellDepth f) 0)
    (JS.or_else (openHoleDiameter f) 0).

(** What [performCalculations] leaves in the state: no result while the
    form has errors, else the engine's result or the message of its
    exception. *)
Inductive Outcome : Type :=
| NoResults
| Results (results : CalculationResults.t)
| CalculationError (message : string).

Definition performCalculations {M : MathLib} (f : Fields) : Outcome :=
  if Nat.ltb 0 (List.length (validate f)) then NoResults
  else
    match CalculatorService.calculatePressureDrop (paramsOf f) with
    | Ok resultsData => Results resultsData
    | Throw message => CalculationError message
    end.

(** [systemHealthScore] for a result that is there; [bottomholePressure]
    is the number read from the field. *)
Definition systemHealthScore (results : CalculationResults.t) (bottomholePressure : float)
    : float :=
  let score := 100 in
  let score :=
    if CalculationResults.maxSegmentVelocity results >? VELOCITY_ERROR_LIMIT
    then score - 40
    else if CalculationResults.maxSegmentVelocity results >? VELOCITY_WARNING_LIMIT
    then score - 20
    else score in
  let pressureMargin := CalculationResults.bottomPressure results - bottomholePressure in
  let score := if pressureMargin <? 0 then score - 20 else score in
  let score :=
    if negb (JS.strict_eq (CalculationResults.maxFlowRate results) JS.Infinity)
       && (CalculationResults.actualFlowRate results
             >? CalculationResults.maxFlowRate results * 0.9)
    then score - 15 else score in
  JS.Math_max 0 score.

End App.

(** *** components/Alerts.tsx *)

Module Alerts.

(** Whether the erosion alert is shown for a result; it names
    [results.maxVelocitySegment]. *)
Definition showsErosionAlert (results : CalculationResults.t) : bool :=
  CalculationResults.maxSegmentVelocity results >? VELOCITY_WARNING_LIMIT.

End Alerts.

(** *** components/Header.tsx *)

Module Header.

Inductive Color : Type := green | yellow | red.

(** The colour of the health score. *)
Definition scoreColor (systemHealthScore : float) : Color :=
  if systemHealthScore >=? 80 then green
  else if systemHealthScore >=? 60 then yellow
  else red.

End Header.

(** * Properties *)

(** ** Comparing binary64 numbers *)

Lemma Pcompare_Eq_spec m1 m2 :
  match Pos.compare_cont Eq m1 m2 with
  | Lt => (Zpos m1 < Zpos m2)%Z
  | Eq => m1 = m2
  | Gt => (Zpos m2 < Zpos m1)%Z
  end.
Proof.
  change (Pos.compare_cont Eq m1 m2) with (Pos.compare m1 m2).
  destruct (Pos.compare_spec m1 m2); lia.
Qed.

Ltac key_consts :=
  repeat match goal with
  | |- context [fkey ?c] =>
      tryif is_var c then fail else
      let k := eval vm_compute in (fkey c) in change (fkey c) with k in *
  | H : context [fkey ?c] |- _ =>
      tryif is_var c then fail else
      let k := eval vm_compute in (fkey c) in change (fkey c) with k in *
  end.

Ltac key_vars :=
  repeat match goal with
  | |- context [fkey ?c] => is_var c; destruct (fkey c) as [[[? ?] ?]|]
  | H : context [fkey ?c] |- _ => is_var c; destruct (fkey c) as [[[? ?] ?]|]
  end.

(** Goals on [flt], [fle], [feq] over variables and literals. *)
Ltac key_order :=
  unfold fle, flt, feq in *; key_consts; key_vars;
  unfold lex_lt, lex_eq in *; cbn beta iota in *;
  try tauto; try lia; try (intuition lia).

Lemma SFcompare_key x y :
  match SFcompare (Prim2SF x) (Prim2SF y) with
  | Some Lt => flt x y
  | Some Eq => feq x y
  | Some Gt => flt y x
  | None => fkey x = None \/ fkey y = None
  end.
Proof.
  unfold flt, feq, fkey.
  destruct (Prim2SF x) as [sx|sx| |sx mx ex], (Prim2SF y) as [sy|sy| |sy my ey];
    cbn; auto;
    try (destruct sx; cbn; lia); try (destruct sy; cbn; lia);
    try (destruct sx, sy; cbn; solve [lia | reflexivity]).
  destruct sx, sy; cbn; try lia;
    destruct (Z.compare_spec ex ey); cbn; try lia; subst;
    pose proof (Pcompare_Eq_spec mx my) as P;
    destruct (Pos.compare_cont Eq mx my); cbn; subst; try lia; try reflexivity.
Qed.

Lemma flt_irrefl_feq x y : flt x y -> feq x y -> False.
Proof. key_order. Qed.

Lemma flt_asym x y : flt x y -> flt y x -> False.
Proof. key_order. Qed.

Lemma feq_sym x y : feq x y -> feq y x.
Proof. key_order. Qed.

Lemma flt_defined x y : flt x y -> fkey x <> None /\ fkey y <> None.
Proof. unfold flt. destruct (fkey x), (fkey y); try tauto. split; discriminate. Qed.

Lemma feq_defined x y : feq x y -> fkey x <> None /\ fkey y <> None.
Proof. unfold feq. destruct (fkey x), (fkey y); try tauto. split; discriminate. Qed.

Lemma ltb_true_iff x y : (x <? y) = true <-> flt x y.
Proof.
  rewrite FloatAxioms.ltb_spec. unfold SFltb. pose proof (SFcompare_key x y) as K.
  destruct (SFcompare (Prim2SF x) (Prim2SF y)) as [[]|]; split; intro H;
    try discriminate; auto.
  - exfalso; eapply flt_irrefl_feq; eauto.
  - exfalso; eapply flt_asym; eauto.
  - apply flt_defined in H. tauto.
Qed.

Lemma eqb_true_iff x y : (x =? y) = true <-> feq x y.
Proof.
  rewrite FloatAxioms.eqb_spec. unfold SFeqb. pose proof (SFcompare_key x y) as K.
  destruct (SFcompare (Prim2SF x) (Prim2SF y)) as [[]|]; split; intro H;
    try discriminate; auto.
  - exfalso; eapply flt_irrefl_feq; eauto.
  - exfalso; eapply flt_irrefl_feq; eauto using feq_sym.
  - apply feq_defined in H. tauto.
Qed.

Lemma leb_true_iff x y : (x <=? y) = true <-> fle x y.
Proof.
  rewrite FloatAxioms.leb_spec. unfold SFleb, fle. pose proof (SFcompare_key x y) as K.
  destruct (SFcompare (Prim2SF x) (Prim2SF y)) as [[]|]; split; intro H;
    try discriminate; auto.
  - exfalso. destruct H; [eapply flt_asym | eapply flt_irrefl_feq]; eauto using feq_sym.
  - destruct H as [H|H]; [apply flt_defined in H | apply feq_defined in H]; tauto.
Qed.

Lemma is_nan_false_iff x : is_nan x = false <-> feq x x.
Proof.
  unfold is_nan. rewrite negb_false_iff. apply eqb_true_iff.
Qed.

(** Turn every comparison of numbers in sight into a statement on keys. *)
Ltac float_keys :=
  unfold JS.gtb, JS.geb, JS.strict_eq in *;
  repeat match goal with
  | H : (_ <? _) = true |- _ => apply ltb_true_iff in H
  | H : (_ <=? _) = true |- _ => apply leb_true_iff in H
  | H : (_ =? _) = true |- _ => apply eqb_true_iff in H
  | H : is_nan _ = false |- _ => apply is_nan_false_iff in H
  | H : (_ <? _) = false |- _ => apply not_true_iff_false in H; rewrite ltb_true_iff in H
  | H : (_ <=? _) = false |- _ => apply not_true_iff_false in H; rewrite leb_true_iff in H
  | H : (_ =? _) = false |- _ => apply not_true_iff_false in H; rewrite eqb_true_iff in H
  | |- (_ <? _) = true => apply ltb_true_iff
  | |- (_ <=? _) = true => apply leb_true_iff
  | |- (_ =? _) = true => apply eqb_true_iff
  | |- is_nan _ = false => apply is_nan_false_iff
  | |- (_ <? _) = false => apply not_true_iff_false; rewrite ltb_true_iff
  | |- (_ <=? _) = false => apply not_true_iff_false; rewrite leb_true_iff
  | |- (_ =? _) = false => apply not_true_iff_false; rewrite eqb_true_iff
  end.

Ltac float_order := float_keys; key_order.

Lemma ltb_leb_false x y : (x <? y) = true -> (y <=? x) = false.
Proof. intros. float_order. Qed.

Lemma leb_ltb_false x y : (x <=? y) = true -> (y <? x) = false.
Proof. intros. float_order. Qed.

Lemma leb_ltb_trans x y z : (x <=? y) = true -> (y <? z) = true -> (x <? z) = true.
Proof. intros. float_order. Qed.

Lemma leb_total x y :
  is_nan x = false -> is_nan y = false -> (x <? y) = false -> (y <=? x) = true.
Proof. intros. float_order. Qed.

Lemma leb_infinity x : is_nan x = false -> (x <=? infinity) = true.
Proof.
  intros H. float_keys. unfold fle, flt, feq, fkey in *. key_consts.
  destruct (Prim2SF x) as [s|s| |s m e]; try destruct s; cbn in *; try tauto; lia.
Qed.

(** ** Reynolds number and friction factor *)

Section Formulas.
Context {M : MathLib}.

(** C8. [calculateReynolds] is a total function (it cannot throw); its value
    is exactly [0] when the viscosity or the diameter is zero, and
    [density * velocity * diameter / viscosity] otherwise. *)
Theorem calculateReynolds_total (v d rho mu : float) :
  (exists Re, WellHydraulics.calculateReynolds v d rho mu = Re) /\
  (JS.strict_eq mu 0 = true \/ JS.strict_eq d 0 = true ->
     WellHydraulics.calculateReynolds v d rho mu = 0) /\
  (JS.strict_eq mu 0 = false -> JS.strict_eq d 0 = false ->
     WellHydraulics.calculateReynolds v d rho mu = rho * v * d / mu).
Proof.
  unfold WellHydraulics.calculateReynolds. repeat split.
  - eexists; reflexivity.
  - intros [H | H]; rewrite H; [reflexivity | rewrite orb_true_r; reflexivity].
  - intros Hmu Hd. rewrite Hmu, Hd. reflexivity.
Qed.

(** C1. The friction factor by regime: [0] for [Re <= 0]; [64/Re] for
    [0 < Re < 2300]; for [2300 <= Re < 4000] the linear interpolation between
    [64/2300] and the Swamee-Jain value at [Re = 4000]; the Swamee-Jain
    value itself for [Re >= 4000]. *)
Theorem calculateFrictionFactor_by_regime (Re rr : float) :
  ((Re <=? 0) = true -> WellHydraulics.calculateFrictionFactor Re rr = 0) /\
  ((0 <? Re) = true -> (Re <? 2300) = true ->
     WellHydraulics.calculateFrictionFactor Re rr = 64 / Re) /\
  ((2300 <=? Re) = true -> (Re <? 4000) = true ->
     WellHydraulics.calculateFrictionFactor Re rr =
       64 / 2300 + ((Re - 2300) / (4000 - 2300)) * (swameeJain 4000 rr - 64 / 2300)) /\
  ((4000 <=? Re) = true ->
     WellHydraulics.calculateFrictionFactor Re rr = swameeJain Re rr).
Proof.
  unfold WellHydraulics.calculateFrictionFactor, WellHydraulics.calculateTurbulentFriction,
    swameeJain, LAMINAR_FLOW_LIMIT, TURBULENT_FLOW_START, JS.geb.
  repeat split.
  - intros H. rewrite H. reflexivity.
  - intros H0 H1.
    assert (E : (Re <=? 0) = false) by float_order.
    rewrite E, H1. reflexivity.
  - intros H0 H1.
    assert (E0 : (Re <=? 0) = false) by float_order.
    assert (E1 : (Re <? 2300) = false) by float_order.
    rewrite E0, E1, H0, H1. reflexivity.
  - intros H.
    assert (E0 : (Re <=? 0) = false) by float_order.
    assert (E1 : (Re <? 2300) = false) by float_order.
    assert (E2 : (Re <? 4000) = false) by float_order.
    rewrite E0, E1, E2, andb_false_r. reflexivity.
Qed.

End Formulas.

(** C1 at [Re = 3000], [rr = 0.001], on the reference library. *)
Lemma calculateFrictionFactor_by_regime_witness :
  WellHydraulics.calculateFrictionFactor (M := ReferenceMath.reference) 3000 0.001 =
    64 / 2300
    + ((3000 - 2300) / (4000 - 2300))
      * (swameeJain (M := ReferenceMath.reference) 4000 0.001 - 64 / 2300).
Proof.
  apply (calculateFrictionFactor_by_regime (M := ReferenceMath.reference) 3000 0.001);
    reflexivity.
Defined.

(** C8 at zero viscosity. *)
Lemma calculateReynolds_total_witness :
  WellHydraulics.calculateReynolds 2 0.1 1000 0 = 0.
Proof.
  apply (calculateReynolds_total 2 0.1 1000 0). left. reflexivity.
Defined.

(** ** The two engine modules *)

(** C10. [CalculatorService] and [WellHydraulics] compute the same three
    functions: same value on every input, same exception on every input. *)
Theorem CalculatorService_is_WellHydraulics {M : MathLib} :
  (forall v d rho mu,
     CalculatorService.calculateReynolds v d rho mu =
     WellHydraulics.calculateReynolds v d rho mu) /\
  (forall Re rr,
     CalculatorService.calculateFrictionFactor Re rr =
     WellHydraulics.calculateFrictionFactor Re rr) /\
  (forall p,
     CalculatorService.calculatePressureDrop p =
     WellHydraulics.calculatePressureDrop p).
Proof.
  repeat split.
Qed.

(** ** One pass of the loop *)

Section March.
Context {M : MathLib}.

Import WellHydraulics.

(** What a successful pass leaves in the locals that the bookkeeping
    properties look at. *)
Lemma iteration_bookkeeping p Q all index seg st st' :
  iteration p Q all index seg st = Ok st' ->
  Locals.cumulativeDepth st' = Locals.cumulativeDepth st + Segment.length seg /\
  map rowOf (Locals.segmentResults st') =
    map rowOf (Locals.segmentResults st)
    ++ (if isUserSegment seg
        then [ ((index + 1)%nat, Segment.diameter seg, Segment.length seg,
                Locals.cumulativeDepth st,
                Locals.cumulativeDepth st + Segment.length seg) ]
        else []) /\
  Locals.warnings st' =
    (if (Locals.currentPressure st' <? 0)
        && negb (JS.some (fun w => JS.startsWith w "Cavitation risk:") (Locals.warnings st))
     then Locals.warnings st ++ [cavitationWarning index]
     else Locals.warnings st) /\
  (exists e,
     Locals.frictionLosses st' = Locals.frictionLosses st ++ [e] /\
     Locals.totalFrictionLoss st' = Locals.totalFrictionLoss st + FrictionEntry.loss e).
Proof.
  unfold iteration. intros H.
  destruct (_ <=? 0) in H; [discriminate|].
  destruct (_ <=? 0) in H; [discriminate|].
  destruct (minorLossAt _ _ _ _ _ _) as [minorLoss|] in H; [|discriminate].
  cbn [bind] in H. injection H as <-. cbn [Locals.cumulativeDepth Locals.segmentResults
    Locals.warnings Locals.frictionLosses Locals.totalFrictionLoss Locals.currentPressure].
  repeat split.
  - unfold isUserSegment. destruct (negb _).
    + rewrite map_app. reflexivity.
    + rewrite app_nil_r. reflexivity.
  - eexists. split; reflexivity.
Qed.

Lemma loop_app p Q all xs ys index st :
  loop p Q all (xs ++ ys) index st =
  bind (loop p Q all xs index st)
       (fun st' => loop p Q all ys (index + List.length xs) st').
Proof.
  revert index st. induction xs as [|x xs IH]; intros index st; cbn.
  - rewrite Nat.add_0_r. reflexivity.
  - destruct (iteration p Q all index x st) as [st1|]; cbn; [|reflexivity].
    rewrite IH. replace (S index + List.length xs)%nat with (index + S (List.length xs))%nat by lia.
    reflexivity.
Qed.

(** The rows of the per-segment list and the depth after a run of passes. *)
Lemma loop_rows p Q all todo index st st' :
  loop p Q all todo index st = Ok st' ->
  map rowOf (Locals.segmentResults st') =
    map rowOf (Locals.segmentResults st)
    ++ depthRows (Locals.cumulativeDepth st) index todo /\
  Locals.cumulativeDepth st' =
    fold_left (fun sum seg => sum + Segment.length seg) todo (Locals.cumulativeDepth st).
Proof.
  revert index st. induction todo as [|seg rest IH]; intros index st H; cbn in *.
  - injection H as <-. rewrite app_nil_r. split; reflexivity.
  - destruct (iteration p Q all index seg st) as [st1|] eqn:E; cbn in H; [|discriminate].
    apply iteration_bookkeeping in E. destruct E as (Ed & Er & _).
    apply IH in H. destruct H as (Hr & Hd).
    rewrite Hr, Hd, Er, Ed, <- app_assoc. split; reflexivity.
Qed.

(** The trace has one entry per pass, and ends with the final locals. *)
Lemma loop_trace p Q all todo index st st' :
  loop p Q all todo index st = Ok st' ->
  List.length (trace p Q all todo index st) = List.length todo /\
  forall d, last (st :: trace p Q all todo index st) d = st'.
Proof.
  revert index st. induction todo as [|seg rest IH]; intros index st H.
  - injection H as <-. split; reflexivity.
  - cbn [loop trace] in *.
    destruct (iteration p Q all index seg st) as [st1|] eqn:E; cbn [bind] in H; [|discriminate].
    apply IH in H. destruct H as (Hl & Hlast). cbn [List.length]. split; [lia|].
    intros d. specialize (Hlast d). exact Hlast.
Qed.

Lemma cavitationWarning_startsWith index :
  JS.startsWith (cavitationWarning index) "Cavitation risk:" = true.
Proof. reflexivity. Qed.

(** The warnings after a run of passes that starts without any warning, or
    with the one cavitation warning. *)
Lemma loop_warnings p Q all todo index st st' :
  loop p Q all todo index st = Ok st' ->
  (Locals.warnings st = [] ->
   Locals.warnings st' =
     match firstNegative index (map Locals.currentPressure (trace p Q all todo index st)) with
     | Some j => [cavitationWarning j]
     | None => []
     end) /\
  (forall j, Locals.warnings st = [cavitationWarning j] ->
   Locals.warnings st' = [cavitationWarning j]).
Proof.
  revert index st. induction todo as [|seg rest IH]; intros index st H;
    cbn [loop trace map firstNegative] in *.
  - injection H as <-. split; [intros ->; reflexivity | intros j ->; reflexivity].
  - destruct (iteration p Q all index seg st) as [st1|] eqn:E; cbn [bind] in H; [|discriminate].
    apply iteration_bookkeeping in E. destruct E as (_ & _ & Ew & _).
    apply IH in H. destruct H as (H0 & H1). split.
    + intros W0. rewrite W0 in Ew. cbn [JS.some existsb negb app] in Ew.
      rewrite andb_true_r in Ew.
      cbn [map firstNegative]. destruct (Locals.currentPressure st1 <? 0).
      * apply H1. exact Ew.
      * apply H0. exact Ew.
    + intros j Wj. rewrite Wj in Ew.
      assert (S : JS.some (fun w => JS.startsWith w "Cavitation risk:")
                    [cavitationWarning j] = true).
      { cbn [JS.some existsb]. rewrite cavitationWarning_startsWith. reflexivity. }
      rewrite S, andb_false_r in Ew. apply H1. exact Ew.
Qed.

End March.

(** ** The effective segment list *)

Section Results.
Context {M : MathLib}.

Import WellHydraulics.

Lemma Math_max_0_threshold x : (JS.Math_max 0 x >? 0.1) = (x >? 0.1).
Proof.
  unfold JS.Math_max, JS.gtb.
  change (is_nan 0) with false. change (JS.is_neg_zero 0) with false. cbn iota.
  destruct (is_nan x) eqn:N; [reflexivity|].
  destruct (0 <? x) eqn:P; [reflexivity|].
  assert (E : (0.1 <? x) = false) by float_order.
  rewrite E. destruct (x <? 0); reflexivity.
Qed.

Lemma Math_max_0_residual x : (x >? 0.1) = true -> JS.Math_max 0 x = x.
Proof.
  unfold JS.Math_max, JS.gtb. intros H.
  change (is_nan 0) with false. cbn iota.
  destruct (is_nan x) eqn:N; [reflexivity|].
  assert (E : (0 <? x) = true) by float_order.
  rewrite E. reflexivity.
Qed.

Lemma buildAllSegments_cases p :
  ((residualLength p >? 0.1) = false ->
     buildAllSegments p = Ok (CalculationParams.segments p)) /\
  ((residualLength p >? 0.1) = true ->
     (CalculationParams.openHoleDiameter p <=? 0) = true ->
     buildAllSegments p = Throw openHoleError) /\
  ((residualLength p >? 0.1) = true ->
     (CalculationParams.openHoleDiameter p <=? 0) = false ->
     buildAllSegments p = Ok (CalculationParams.segments p ++ [openHoleSegment p])).
Proof.
  unfold buildAllSegments, openHoleLength, openHoleSegment, residualLength.
  rewrite Math_max_0_threshold. repeat split.
  - intros ->. reflexivity.
  - intros -> ->. reflexivity.
  - intros H ->. rewrite H. rewrite Math_max_0_residual by exact H. reflexivity.
Qed.

(** A successful calculation is a successful march followed by [finish]. *)
Lemma calculatePressureDrop_Ok p r :
  calculatePressureDrop p = Ok r ->
  exists all st,
    buildAllSegments p = Ok all /\
    loop p (CalculationParams.flowRate p / SECONDS_PER_DAY) all all 0 (initialLocals p)
      = Ok st /\
    march p = Ok st /\
    r = finish p st.
Proof.
  unfold calculatePressureDrop. destruct (march p) as [st|] eqn:E; cbn [bind]; [|discriminate].
  intros H. injection H as <-. pose proof E as E'. unfold march in E.
  destruct (buildAllSegments p) as [all|]; cbn [bind] in E; [|discriminate].
  exists all, st. auto.
Qed.

Lemma depthRows_app depth index xs ys :
  depthRows depth index (xs ++ ys) =
  depthRows depth index xs
  ++ depthRows (fold_left (fun sum seg => sum + Segment.length seg) xs depth)
       (index + List.length xs) ys.
Proof.
  revert depth index. induction xs as [|x xs IH]; intros depth index; cbn.
  - rewrite Nat.add_0_r. reflexivity.
  - rewrite IH, <- app_assoc.
    replace (S index + List.length xs)%nat with (index + S (List.length xs))%nat by lia.
    reflexivity.
Qed.

Lemma buildAllSegments_rows p all depth index :
  buildAllSegments p = Ok all ->
  depthRows depth index all = depthRows depth index (CalculationParams.segments p).
Proof.
  unfold buildAllSegments. destruct (_ >? 0.1).
  - destruct (_ <=? 0); [discriminate|]. intros H. injection H as <-.
    rewrite depthRows_app. cbn. apply app_nil_r.
  - intros H. injection H as <-. reflexivity.
Qed.

(** The rows of the returned per-segment list. *)
Lemma results_rows p r :
  calculatePressureDrop p = Ok r ->
  map rowOf (CalculationResults.segments r) =
  depthRows 0 0 (CalculationParams.segments p).
Proof.
  intros H. apply calculatePressureDrop_Ok in H.
  destruct H as (all & st & Hb & Hl & _ & ->).
  apply loop_rows in Hl. destruct Hl as (Hr & _).
  cbn in Hr. cbn [finish CalculationResults.segments].
  rewrite Hr. apply buildAllSegments_rows. exact Hb.
Qed.

(** *** Rows of user segments *)

Lemma depthRows_filter depth index l :
  map (fun row => let '(_, d, len, _, _) := row in (d, len)) (depthRows depth index l) =
  map (fun s => (Segment.diameter s, Segment.length s)) (filter isUserSegment l).
Proof.
  revert depth index. induction l as [|s l IH]; intros depth index; cbn; [reflexivity|].
  destruct (isUserSegment s); cbn; rewrite IH; reflexivity.
Qed.

Lemma depthRows_numbers depth index l :
  forallb isUserSegment l = true ->
  map (fun row => let '(n, _, _, _, _) := row in n) (depthRows depth index l) =
  seq (index + 1) (List.length l).
Proof.
  revert depth index. induction l as [|s l IH]; intros depth index H; cbn in *; [reflexivity|].
  apply andb_true_iff in H. destruct H as (Hs & Hl). rewrite Hs. cbn.
  rewrite IH by exact Hl. replace (S index + 1)%nat with (S (index + 1)) by lia. reflexivity.
Qed.

Lemma depthRows_chain depth index l :
  forallb isUserSegment l = true ->
  (forall row, nth_error (depthRows depth index l) 0 = Some row -> rowFrom row = depth) /\
  (forall i a b,
     nth_error (depthRows depth index l) i = Some a ->
     nth_error (depthRows depth index l) (S i) = Some b ->
     rowTo a = rowFrom b) /\
  (forall d, l <> [] ->
     rowTo (last (depthRows depth index l) d) =
     fold_left (fun sum seg => sum + Segment.length seg) l depth).
Proof.
  revert depth index. induction l as [|s l IH]; intros depth index H.
  - cbn. repeat split; try discriminate. intros d E. now elim E.
  - cbn [forallb] in H. apply andb_true_iff in H. destruct H as (Hs & Hl).
    cbn [depthRows fold_left]. rewrite Hs. cbn [app].
    destruct (IH (depth + Segment.length s) (S index) Hl) as (Ihd & Iadj & Ilast).
    repeat split.
    + intros row E. cbn in E. injection E as <-. reflexivity.
    + intros i a b Ea Eb. destruct i as [|i].
      * cbn in Ea. injection Ea as <-. cbn [nth_error] in Eb.
        apply Ihd in Eb. rewrite Eb. reflexivity.
      * cbn [nth_error] in Ea, Eb. eapply Iadj; eassumption.
    + intros d _. destruct l as [|s' l'].
      * reflexivity.
      * assert (NE : s' :: l' <> []) by discriminate.
        specialize (Ilast d NE).
        remember (depthRows (depth + Segment.length s) (S index) (s' :: l')) as rows eqn:R.
        destruct rows as [|row rows'].
        { cbn [forallb] in Hl. apply andb_true_iff in Hl. destruct Hl as (Hs' & _).
          cbn [depthRows] in R. rewrite Hs' in R. discriminate. }
        exact Ilast.
Qed.

Lemma last_map_rowOf (l : list SegmentResult.t) (d : SegmentResult.t) :
  last (map rowOf l) (rowOf d) = rowOf (last l d).
Proof.
  induction l as [|x l IH]; [reflexivity|].
  destruct l as [|y l]; [reflexivity|]. exact IH.
Qed.

(** Depths in the returned list when every input segment is reported. *)
Lemma segment_rows_user p r :
  calculatePressureDrop p = Ok r ->
  forallb isUserSegment (CalculationParams.segments p) = true ->
  let results := CalculationResults.segments r in
  (forall first, nth_error results 0 = Some first -> SegmentResult.depthFrom first = 0) /\
  (forall i a b,
     nth_error results i = Some a -> nth_error results (S i) = Some b ->
     SegmentResult.depthTo a = SegmentResult.depthFrom b) /\
  (forall d, results <> [] ->
     SegmentResult.depthTo (last results d) = sumLengths (CalculationParams.segments p)).
Proof.
  intros H U results. apply results_rows in H. fold results in H.
  destruct (depthRows_chain 0 0 _ U) as (Hhd & Hadj & Hlast). rewrite <- H in Hhd, Hadj, Hlast.
  repeat split.
  - intros first E. apply (Hhd (rowOf first)). rewrite nth_error_map, E. reflexivity.
  - intros i a b Ea Eb. apply (Hadj i (rowOf a) (rowOf b)); rewrite nth_error_map.
    + rewrite Ea. reflexivity.
    + rewrite Eb. reflexivity.
  - intros d NE.
    assert (NS : CalculationParams.segments p <> []).
    { intros E. rewrite E in H. cbn in H. destruct results; [now apply NE | discriminate]. }
    specialize (Hlast (rowOf d) NS). rewrite last_map_rowOf in Hlast. exact Hlast.
Qed.

(** *** The first negative pressure *)

Lemma firstNegative_spec index pressures :
  match firstNegative index pressures with
  | Some j =>
      index <= j < index + List.length pressures /\
      (nth (j - index) pressures 0 <? 0) = true /\
      (forall i, index <= i < j -> (nth (i - index) pressures 0 <? 0) = false)
  | None => Forall (fun x => (x <? 0) = false) pressures
  end.
Proof.
  revert index. induction pressures as [|x l IH]; intros index; cbn [firstNegative].
  - constructor.
  - destruct (x <? 0) eqn:E.
    + cbn [List.length]. split; [lia|]. rewrite Nat.sub_diag. split; [exact E|]. intros i Hi. lia.
    + specialize (IH (S index)). destruct (firstNegative (S index) l) as [j|].
      * destruct IH as (Hj & Hneg & Hbefore). cbn [List.length]. split; [lia|].
        replace (j - index)%nat with (S (j - S index)) by lia. split; [exact Hneg|].
        intros i Hi. destruct (Nat.eq_dec i index) as [->|Ne].
        -- rewrite Nat.sub_diag. exact E.
        -- replace (i - index)%nat with (S (i - S index)) by lia. apply Hbefore. lia.
      * constructor; assumption.
Qed.

End Results.

(** *** The warning names its segment *)

Lemma append_length (s t : string) :
  String.length (s ++ t) = (String.length s + String.length t)%nat.
Proof. induction s as [|c s IH]; cbn; [reflexivity | rewrite IH; reflexivity]. Qed.

Lemma append_inv_tail (s1 s2 t : string) : (s1 ++ t = s2 ++ t)%string -> s1 = s2.
Proof.
  revert s2. induction s1 as [|c s1 IH]; intros [|c2 s2] H; cbn in H.
  - reflexivity.
  - apply (f_equal String.length) in H. cbn in H. rewrite append_length in H. lia.
  - apply (f_equal String.length) in H. cbn in H. rewrite append_length in H. lia.
  - injection H as -> H. f_equal. apply IH. exact H.
Qed.

Lemma show_nat_inj a b : JS.show_nat a = JS.show_nat b -> a = b.
Proof.
  unfold JS.show_nat. intros H.
  apply (f_equal NilEmpty.uint_of_string) in H. rewrite !NilEmpty.usu in H.
  injection H as H. apply (f_equal Nat.of_uint) in H.
  rewrite !DecimalNat.Unsigned.of_to in H. exact H.
Qed.

Lemma cavitationWarning_inj i j : cavitationWarning i = cavitationWarning j -> i = j.
Proof.
  unfold cavitationWarning. intros H.
  cbn [String.append] in H.
  repeat match type of H with
         | String ?c _ = String ?c _ => injection H as H
         end.
  apply append_inv_tail, show_nat_inj in H. lia.
Qed.

(** ** Properties of the returned record *)

Section Claims.
Context {M : MathLib}.

Import WellHydraulics.

(** C4. One synthetic open-hole segment (residual length, the given
    open-hole diameter, the default roughness) is appended exactly when the
    well depth exceeds the summed segment lengths by more than 0.1 m; in
    that case a non-positive open-hole diameter makes the calculation throw;
    the synthetic segment goes through a pass of the march like any other
    (pressure, depth, friction-loss list and totals), and the per-segment
    list returned is the one built before that pass. *)
Theorem openHole_segment_rule (p : CalculationParams.t) :
  let segments := CalculationParams.segments p in
  let Q := CalculationParams.flowRate p / SECONDS_PER_DAY in
  let n := List.length segments in
  (Forall (fun s => JS.truthy (Segment.length s) = true) segments ->
     totalSegmentLength segments = sumLengths segments) /\
  ((residualLength p >? 0.1) = false -> buildAllSegments p = Ok segments) /\
  ((residualLength p >? 0.1) = true ->
     (CalculationParams.openHoleDiameter p <=? 0) = true ->
     calculatePressureDrop p = Throw openHoleError) /\
  ((residualLength p >? 0.1) = true ->
     (CalculationParams.openHoleDiameter p <=? 0) = false ->
     buildAllSegments p = Ok (segments ++ [openHoleSegment p])) /\
  (forall r,
     (residualLength p >? 0.1) = true ->
     calculatePressureDrop p = Ok r ->
     exists tubing st e,
       loop p Q (segments ++ [openHoleSegment p]) segments 0 (initialLocals p) = Ok tubing /\
       iteration p Q (segments ++ [openHoleSegment p]) n (openHoleSegment p) tubing = Ok st /\
       r = finish p st /\
       Locals.frictionLosses st = Locals.frictionLosses tubing ++ [e] /\
       Locals.totalFrictionLoss st = Locals.totalFrictionLoss tubing + FrictionEntry.loss e /\
       Locals.cumulativeDepth st = Locals.cumulativeDepth tubing + residualLength p /\
       CalculationResults.segments r = Locals.segmentResults tubing /\
       Forall (fun x => SegmentResult.segmentNumber x <= n)
         (CalculationResults.segments r)).
Proof.
  intros segments Q n.
  destruct (buildAllSegments_cases p) as (B0 & B1 & B2).
  split; [|split; [|split; [|split]]].
  - unfold totalSegmentLength, sumLengths.
    generalize 0 at 2 3. induction segments as [|s l IH]; intros acc F; cbn; [reflexivity|].
    inversion F as [|? ? Hs Hl]; subst. unfold JS.or_else at 2. rewrite Hs. apply IH. exact Hl.
  - exact B0.
  - intros H D. unfold calculatePressureDrop, march. rewrite (B1 H D). reflexivity.
  - exact B2.
  - intros r H C.
    destruct (CalculationParams.openHoleDiameter p <=? 0) eqn:D.
    { unfold calculatePressureDrop, march in C. rewrite (B1 H eq_refl) in C. discriminate. }
    apply calculatePressureDrop_Ok in C. destruct C as (all & st & Hb & Hl & _ & ->).
    rewrite (B2 H eq_refl) in Hb. injection Hb as <-.
    rewrite loop_app in Hl. fold segments Q in Hl |- *.
    destruct (loop p Q (segments ++ [openHoleSegment p]) segments 0 (initialLocals p))
      as [tubing|] eqn:T; cbn [bind] in Hl; [|discriminate].
    cbn [loop Nat.add] in Hl. fold n in Hl.
    destruct (iteration p Q (segments ++ [openHoleSegment p]) n (openHoleSegment p) tubing)
      as [st1|] eqn:I; cbn [bind] in Hl; [|discriminate].
    injection Hl as ->.
    pose proof (iteration_bookkeeping _ _ _ _ _ _ _ I) as (Hd & Hr & _ & e & Hf & Ht).
    assert (Hseg : Locals.segmentResults st = Locals.segmentResults tubing).
    { clear - I. unfold iteration in I.
      destruct (_ <=? 0) in I; [discriminate|].
      destruct (_ <=? 0) in I; [discriminate|].
      destruct (minorLossAt _ _ _ _ _ _) in I; [|discriminate].
      cbn [bind] in I. injection I as <-. reflexivity. }
    exists tubing, st, e. repeat split; try assumption.
    cbn [finish CalculationResults.segments]. rewrite Hseg.
    apply loop_rows in T. destruct T as (Tr & _). cbn [initialLocals Locals.segmentResults
      Locals.cumulativeDepth map app] in Tr.
    clear - Tr. fold n.
    assert (G : forall depth index l rows,
              rows = depthRows depth index l ->
              Forall (fun row => (let '(k, _, _, _, _) := row in k) <= index + List.length l) rows).
    { intros depth index l. revert depth index.
      induction l as [|s l IH]; intros depth index rows ->; cbn; [constructor|].
      apply Forall_app. split.
      - destruct (isUserSegment s); constructor; [lia | constructor].
      - eapply Forall_impl; [|eapply IH; reflexivity].
        intros [[[[k ?] ?] ?] ?]. cbn. lia. }
    specialize (G _ _ _ _ Tr). rewrite Forall_map in G.
    eapply Forall_impl; [|exact G]. intros x Hx. cbn in Hx. exact Hx.
Qed.

(** C5 (amended). The per-segment list has one entry per input segment
    whose id is not the reserved [-1], in input order; it has one entry per
    input segment, numbered 1, 2, ..., whenever no input id is [-1]. *)
Theorem segment_results_count (p : CalculationParams.t) (r : CalculationResults.t) :
  calculatePressureDrop p = Ok r ->
  let segments := CalculationParams.segments p in
  let results := CalculationResults.segments r in
  List.length results = List.length (filter isUserSegment segments) /\
  map (fun x => (SegmentResult.diameter x, SegmentResult.length x)) results =
    map (fun s => (Segment.diameter s, Segment.length s)) (filter isUserSegment segments) /\
  (forallb isUserSegment segments = true ->
     List.length results = List.length segments /\
     map SegmentResult.segmentNumber results = seq 1 (List.length segments) /\
     map (fun x => (SegmentResult.diameter x, SegmentResult.length x)) results =
       map (fun s => (Segment.diameter s, Segment.length s)) segments).
Proof.
  intros H segments results. apply results_rows in H. fold segments results in H.
  assert (E : map (fun x => (SegmentResult.diameter x, SegmentResult.length x)) results =
              map (fun s => (Segment.diameter s, Segment.length s))
                (filter isUserSegment segments)).
  { rewrite <- (depthRows_filter 0 0), <- H, map_map. reflexivity. }
  assert (L : List.length results = List.length (filter isUserSegment segments)).
  { apply (f_equal (@List.length _)) in E. rewrite !length_map in E. exact E. }
  repeat split; try assumption.
  - rewrite L. f_equal. apply forallb_filter_id. assumption.
  - rewrite <- (depthRows_numbers 0 0) by assumption.
    rewrite <- H, map_map. reflexivity.
  - rewrite E. rewrite forallb_filter_id by assumption. reflexivity.
Qed.

(** C6 (amended). When no input id is the reserved [-1]: the first entry
    starts at depth 0, each entry starts where the previous one ends, and
    the last entry ends at the running sum of the input lengths, which is
    within the well depth whenever that sum is. *)
Theorem depth_bookkeeping (p : CalculationParams.t) (r : CalculationResults.t) :
  calculatePressureDrop p = Ok r ->
  forallb isUserSegment (CalculationParams.segments p) = true ->
  let results := CalculationResults.segments r in
  (forall first, nth_error results 0 = Some first -> SegmentResult.depthFrom first = 0) /\
  (forall i a b,
     nth_error results i = Some a -> nth_error results (S i) = Some b ->
     SegmentResult.depthTo a = SegmentResult.depthFrom b) /\
  (forall d, results <> [] ->
     SegmentResult.depthTo (last results d) = sumLengths (CalculationParams.segments p)) /\
  (forall d, results <> [] ->
     (sumLengths (CalculationParams.segments p) <=? CalculationParams.wellDepth p) = true ->
     (SegmentResult.depthTo (last results d) <=? CalculationParams.wellDepth p) = true).
Proof.
  intros H U results. pose proof (segment_rows_user p r H U) as (Hhd & Hadj & Hlast).
  fold results in Hhd, Hadj, Hlast.
  repeat split; try assumption.
  intros d NE Hle. rewrite (Hlast d NE). exact Hle.
Qed.

(** C7. The warnings field holds exactly the one cavitation warning naming
    the first effective segment whose outlet pressure is negative, and is
    absent when no outlet pressure in the march is negative. *)
Theorem cavitation_warning_rule (p : CalculationParams.t) (r : CalculationResults.t) :
  calculatePressureDrop p = Ok r ->
  exists all,
    buildAllSegments p = Ok all /\
    List.length (outletPressures p all) = List.length all /\
    CalculationResults.warnings r =
      match firstNegative 0 (outletPressures p all) with
      | Some j => Some [cavitationWarning j]
      | None => None
      end /\
    ((exists x, In x (outletPressures p all) /\ (x <? 0) = true) <->
     (exists j, CalculationResults.warnings r = Some [cavitationWarning j])) /\
    (forall j, CalculationResults.warnings r = Some [cavitationWarning j] ->
       j < List.length all /\
       (nth j (outletPressures p all) 0 <? 0) = true /\
       forall i, i < j -> (nth i (outletPressures p all) 0 <? 0) = false).
Proof.
  intros H. apply calculatePressureDrop_Ok in H.
  destruct H as (all & st & Hb & Hl & _ & ->). exists all.
  pose proof (loop_trace _ _ _ _ _ _ _ Hl) as (Hlen & _).
  pose proof (loop_warnings _ _ _ _ _ _ _ Hl) as (Hw & _).
  specialize (Hw eq_refl). fold (outletPressures p all) in Hw.
  assert (W : CalculationResults.warnings (finish p st) =
              match firstNegative 0 (outletPressures p all) with
              | Some j => Some [cavitationWarning j]
              | None => None
              end).
  { cbn [finish CalculationResults.warnings]. rewrite Hw.
    destruct (firstNegative 0 (outletPressures p all)); reflexivity. }
  assert (Len : List.length (outletPressures p all) = List.length all).
  { unfold outletPressures. rewrite length_map. exact Hlen. }
  split; [exact Hb|]. split; [exact Len|]. split; [exact W|].
  rewrite W. pose proof (firstNegative_spec 0 (outletPressures p all)) as S.
  destruct (firstNegative 0 (outletPressures p all)) as [j|].
  - destruct S as (Hj & Hneg & Hbefore). rewrite Nat.sub_0_r in Hneg. split; [split|].
    + intros _. exists j. reflexivity.
    + intros _. exists (nth j (outletPressures p all) 0). split; [|exact Hneg].
      apply nth_In. lia.
    + intros j' E.
      assert (E' : cavitationWarning j = cavitationWarning j') by congruence.
      apply cavitationWarning_inj in E'. subst j'.
      split; [lia|]. split; [exact Hneg|].
      intros i Hi. specialize (Hbefore i). rewrite Nat.sub_0_r in Hbefore. apply Hbefore. lia.
  - split; [split|].
    + intros (x & Hin & Hx). rewrite Forall_forall in S. rewrite (S x Hin) in Hx. discriminate.
    + intros (j & E). discriminate.
    + intros j E. discriminate.
Qed.

End Claims.

(** ** The maximum flow rate *)

Lemma flt_trans x y z : flt x y -> flt y z -> flt x z.
Proof. key_order. Qed.

Lemma fle_flt_trans x y z : fle x y -> flt y z -> flt x z.
Proof. key_order. Qed.

Lemma flt_fle x y : flt x y -> fle x y.
Proof. key_order. Qed.

Lemma not_flt_fle x y : feq x x -> feq y y -> ~ flt x y -> fle y x.
Proof. key_order. Qed.

(** A zero flow rate stays zero when converted to cubic metres per second. *)
Lemma zero_flow_converts (flowRate : float) :
  JS.strict_eq flowRate 0 = true ->
  JS.strict_eq (flowRate / SECONDS_PER_DAY) 0 = true.
Proof.
  unfold JS.strict_eq. intros H. float_keys.
  unfold feq, fkey in *. rewrite FloatAxioms.div_spec. key_consts.
  destruct (Prim2SF flowRate) as [s|s| |s m e]; cbn in H; try tauto.
  - destruct s; vm_compute; repeat split.
  - destruct s; cbn in H; lia.
  - destruct s; cbn in H; lia.
Qed.

Section MaxFlow.
Context {M : MathLib}.

Import WellHydraulics.

(** [reduce] with [current.loss > max.loss] keeps the first largest entry. *)
Lemma maxFrictionSegment_fold (pre rest : list FrictionEntry.t) (m : FrictionEntry.t) :
  largestFirst m pre ->
  numericLosses (pre ++ rest) ->
  largestFirst (maxFrictionSegment m rest) (pre ++ rest).
Proof.
  unfold maxFrictionSegment. revert pre m.
  induction rest as [|c rest IH]; intros pre m L N; cbn [fold_left].
  - rewrite app_nil_r. exact L.
  - replace (pre ++ c :: rest) with ((pre ++ [c]) ++ rest) in *
      by (rewrite <- app_assoc; reflexivity).
    apply IH; [|exact N].
    destruct L as (l1 & l2 & -> & H1 & H2).
    unfold numericLosses in N. rewrite !Forall_app in N.
    destruct N as (((_ & Nm) & Nc) & _).
    inversion Nm as [|? ? Nm' _]; subst. inversion Nc as [|? ? Nc' _]; subst.
    apply is_nan_false_iff in Nm', Nc'.
    unfold JS.gtb. destruct (FrictionEntry.loss m <? FrictionEntry.loss c) eqn:E.
    + apply ltb_true_iff in E.
      exists (l1 ++ m :: l2), []. split; [reflexivity|]. split; [|constructor].
      rewrite Forall_app. split; [|constructor].
      * eapply Forall_impl; [|exact H1]. intros y Hy. cbn beta in *. eapply flt_trans; eassumption.
      * exact E.
      * eapply Forall_impl; [|exact H2]. intros y Hy. cbn beta in *. eapply fle_flt_trans; eassumption.
    + apply not_true_iff_false in E. rewrite ltb_true_iff in E.
      exists l1, (l2 ++ [c]). split; [rewrite <- app_assoc; reflexivity|].
      split; [exact H1|]. rewrite Forall_app. split; [exact H2|].
      constructor; [|constructor]. apply not_flt_fle; assumption.
Qed.

Lemma dominantRegime_rule (l : list FrictionEntry.t) :
  numericLosses l ->
  exponentRule l (flowExponentOf (dominantRegime l)).
Proof.
  intros N. destruct l as [|first rest].
  - left. split; reflexivity.
  - right. exists (maxFrictionSegment first rest). split.
    + apply (maxFrictionSegment_fold [first] rest first); [|exact N].
      exists [], []. repeat split; constructor.
    + cbn [dominantRegime].
      destruct (FrictionEntry.regime (maxFrictionSegment first rest)); reflexivity.
Qed.

(** C2. The maximum flow rate: [0] when the available pressure is not
    positive; otherwise [Infinity] when the accumulated pressure drop is not
    positive or the requested rate is zero; otherwise the requested rate
    times [(available / drop) ^ (1 / flowExponent)], the exponent being 1
    when the segment of largest friction loss is laminar and 2 otherwise.
    The computed losses are numbers, and a requested rate that is not zero
    is not rounded to zero by the conversion to cubic metres per second. *)
Theorem maxFlowRate_rule (p : CalculationParams.t) (st : Locals.t) :
  march p = Ok st ->
  numericLosses (Locals.frictionLosses st) ->
  JS.strict_eq (CalculationParams.flowRate p / SECONDS_PER_DAY) 0
    = JS.strict_eq (CalculationParams.flowRate p) 0 ->
  let requestedFlowRate := CalculationParams.flowRate p in
  let availablePressure :=
    CalculationParams.injectionPressure p * 1000
    + CalculationParams.fluidDensity p * GRAVITY * CalculationParams.wellDepth p
    - CalculationParams.bottomholePressure p * 1000 in
  let totalPressureDrop := Locals.totalPressureDrop st in
  exists r flowExponent,
    calculatePressureDrop p = Ok r /\
    CalculationResults.totalPressureDrop r = totalPressureDrop / 1000 /\
    exponentRule (Locals.frictionLosses st) flowExponent /\
    CalculationResults.maxFlowRate r =
      if availablePressure <=? 0 then 0
      else if (totalPressureDrop <=? 0) || JS.strict_eq requestedFlowRate 0 then JS.Infinity
      else requestedFlowRate
           * Math_pow (availablePressure / totalPressureDrop) (1 / flowExponent).
Proof.
  intros Hm N Hq requestedFlowRate availablePressure totalPressureDrop.
  exists (finish p st), (flowExponentOf (dominantRegime (Locals.frictionLosses st))).
  split; [unfold calculatePressureDrop; rewrite Hm; reflexivity|].
  split; [reflexivity|].
  split; [apply dominantRegime_rule; exact N|].
  cbn [finish CalculationResults.maxFlowRate]. unfold availablePressureOf.
  fold availablePressure. rewrite Hq. reflexivity.
Qed.

End MaxFlow.

(** ** Arithmetic on zeros and signs *)

Lemma binary_round_aux_sign prec emax sx mx ex lx :
  match binary_round_aux prec emax sx mx ex lx with
  | S754_zero s | S754_infinity s | S754_finite s _ _ => s = sx
  | S754_nan => True
  end.
Proof.
  unfold binary_round_aux.
  destruct (shr_fexp prec emax mx ex lx) as [mrs' e'].
  destruct (shr_fexp prec emax _ e' loc_Exact) as [mrs'' e''].
  destruct (shr_m mrs''); auto. destruct (_ <=? _)%Z; reflexivity.
Qed.

Lemma notNegative_SF x :
  notNegative x <->
  match Prim2SF x with
  | S754_infinity s | S754_finite s _ _ => s = false
  | _ => True
  end.
Proof.
  unfold notNegative. rewrite <- not_true_iff_false, ltb_true_iff.
  unfold flt, fkey. change (Prim2SF 0) with (S754_zero false).
  destruct (Prim2SF x) as [s|s| |s m e]; cbn; try destruct s; cbn; intuition (try lia; try discriminate).
Qed.

Lemma mul_notNegative a b : notNegative a -> notNegative b -> notNegative (a * b).
Proof.
  rewrite !notNegative_SF, FloatAxioms.mul_spec. unfold SF64mul, SFmul.
  destruct (Prim2SF a) as [sa|sa| |sa ma ea], (Prim2SF b) as [sb|sb| |sb mb eb];
    cbn; auto; intros -> ; try intros ->; auto.
  pose proof (binary_round_aux_sign prec emax (xorb false false)
                (Z.pos (ma * mb)) (ea + eb) loc_Exact) as S.
  destruct (binary_round_aux _ _ _ _ _ _); auto.
Qed.

Lemma add_notNegative a b : notNegative a -> notNegative b -> notNegative (a + b).
Proof.
  rewrite !notNegative_SF, FloatAxioms.add_spec. unfold SF64add, SFadd.
  destruct (Prim2SF a) as [sa|sa| |sa ma ea], (Prim2SF b) as [sb|sb| |sb mb eb];
    cbn; auto; try (intros -> ; try intros ->; auto; fail);
    try (destruct sa, sb; cbn; auto; fail);
    try (intros ? ->; destruct sa; auto; fail).
  intros -> ->. cbn [cond_Zopp Z.add]. unfold binary_normalize, binary_round.
  destruct (shl_align _ _ _) as [mz ez].
  pose proof (binary_round_aux_sign prec emax false (Z.pos mz) ez loc_Exact) as S.
  destruct (binary_round_aux _ _ _ _ _ _); auto.
Qed.

Lemma finitePositive_SF x :
  finitePositive x -> exists m e, Prim2SF x = S754_finite false m e.
Proof.
  unfold finitePositive. rewrite !ltb_true_iff. unfold flt, fkey.
  change (Prim2SF 0) with (S754_zero false).
  change (Prim2SF infinity) with (S754_infinity false).
  destruct (Prim2SF x) as [s|s| |s m e]; cbn; try destruct s; cbn;
    intros (H0 & H1); try lia; try tauto.
  eauto.
Qed.

Lemma zero_SF x : (x =? 0) = true <-> exists s, Prim2SF x = S754_zero s.
Proof.
  rewrite eqb_true_iff. unfold feq, fkey. change (Prim2SF 0) with (S754_zero false).
  destruct (Prim2SF x) as [s|s| |s m e]; cbn; try destruct s; cbn; split;
    try (intros (? & ?); discriminate); try lia; try tauto; eauto.
Qed.

Lemma mul_zero_r a : finitePositive a -> a * 0 = 0.
Proof.
  intros H. apply finitePositive_SF in H. destruct H as (m & e & H).
  apply Prim2SF_inj. rewrite FloatAxioms.mul_spec, H. reflexivity.
Qed.

Lemma sub_zero_r x : x - 0 = x.
Proof.
  apply Prim2SF_inj. rewrite FloatAxioms.sub_spec.
  change (Prim2SF 0) with (S754_zero false). unfold SF64sub, SFsub.
  destruct (Prim2SF x) as [s|s| |s m e]; try destruct s; reflexivity.
Qed.

Lemma zero_div_positive x a :
  (x =? 0) = true -> (0 <? a) = true -> (x / a =? 0) = true.
Proof.
  rewrite !zero_SF, ltb_true_iff. unfold flt, fkey.
  change (Prim2SF 0) with (S754_zero false).
  rewrite FloatAxioms.div_spec. intros (s & ->). unfold SF64div, SFdiv.
  destruct (Prim2SF a) as [sa|sa| |sa ma ea]; cbn; try destruct sa; cbn;
    try lia; try tauto; eauto.
Qed.

Lemma positive_of_guard a : (a <=? 0) = false -> is_nan a = false -> (0 <? a) = true.
Proof. intros. float_order. Qed.

Lemma zero_not_positive x : (x =? 0) = true -> (x >? 0) = false.
Proof. intros. float_order. Qed.

Lemma positive_notNegative x : (0 <? x) = true -> notNegative x.
Proof. unfold notNegative. intros. float_order. Qed.

Lemma threshold_notNegative x : (x >? 0.1) = true -> notNegative x.
Proof. unfold notNegative. intros. float_order. Qed.

(** ** Zero flow *)

Section ZeroFlow.
Context {M : MathLib}.

Import WellHydraulics.

Lemma minorLossAt_zero_flow rho Q all index A V ml :
  (Q =? 0) = true -> (V =? 0) = true ->
  finitePositive (ENTRY_LOSS_COEFFICIENT * rho) -> powOfZero ->
  minorLossAt rho Q all index A V = Ok ml ->
  ml = 0.
Proof.
  intros HQ HV Hrho Hpow. unfold minorLossAt.
  rewrite (Hpow V HV), (mul_zero_r _ Hrho).
  destruct index as [|index]; cbn [Nat.eqb Nat.ltb Nat.leb].
  - intros H. injection H as <-. reflexivity.
  - destruct (elementAt all _) as [prev|]; cbn [bind]; [|discriminate].
    rewrite (zero_not_positive Q HQ), !andb_false_r.
    intros H. injection H as <-. reflexivity.
Qed.

Lemma iteration_zero_flow p Q all index seg st st' :
  (Q =? 0) = true ->
  finitePositive (CalculationParams.fluidDensity p * GRAVITY) ->
  finitePositive (ENTRY_LOSS_COEFFICIENT * CalculationParams.fluidDensity p) ->
  powOfZero ->
  is_nan (areaOf seg) = false ->
  iteration p Q all index seg st = Ok st' ->
  Locals.currentPressure st' =
    Locals.currentPressure st
    + CalculationParams.fluidDensity p * GRAVITY * Segment.length seg /\
  Locals.totalFrictionLoss st' = Locals.totalFrictionLoss st + 0 /\
  Locals.totalPressureDrop st' = Locals.totalPressureDrop st + (0 + 0) /\
  (Forall (fun x => JS.strict_eq (SegmentResult.velocity x) 0 = true)
     (Locals.segmentResults st) ->
   Forall (fun x => JS.strict_eq (SegmentResult.velocity x) 0 = true)
     (Locals.segmentResults st')).
Proof.
  intros HQ Hg He Hpow HA. unfold iteration, areaOf in *. cbv zeta.
  destruct (Segment.diameter seg / 1000 <=? 0); [discriminate|].
  destruct (PI * Math_pow (Segment.diameter seg / 1000 / 2) 2 <=? 0) eqn:G; [discriminate|].
  pose proof (positive_of_guard _ G HA) as PA.
  pose proof (zero_div_positive _ _ HQ PA) as HV.
  unfold JS.strict_eq. rewrite HV.
  rewrite (mul_zero_r _ Hg).
  destruct (minorLossAt _ _ _ _ _ _) as [ml|] eqn:E; cbn [bind]; [|discriminate].
  apply minorLossAt_zero_flow in E; try assumption. subst ml.
  intros H. injection H as <-.
  cbn [Locals.currentPressure Locals.totalFrictionLoss Locals.totalPressureDrop
       Locals.segmentResults].
  rewrite !sub_zero_r. split; [reflexivity|]. split; [reflexivity|]. split; [reflexivity|].
  intros F. destruct (negb _); [|exact F].
  apply Forall_app. split; [exact F|]. constructor; [|constructor]. exact HV.
Qed.

Lemma iteration_notNegative p Q all index seg st st' :
  (Q =? 0) = true ->
  finitePositive (CalculationParams.fluidDensity p * GRAVITY) ->
  finitePositive (ENTRY_LOSS_COEFFICIENT * CalculationParams.fluidDensity p) ->
  powOfZero ->
  is_nan (areaOf seg) = false ->
  notNegative (Segment.length seg) ->
  iteration p Q all index seg st = Ok st' ->
  Locals.warnings st = [] -> notNegative (Locals.currentPressure st) ->
  Locals.warnings st' = [] /\ notNegative (Locals.currentPressure st').
Proof.
  intros HQ Hg He Hpow HA HL I W N.
  pose proof (iteration_zero_flow _ _ _ _ _ _ _ HQ Hg He Hpow HA I) as (Hp & _).
  pose proof (iteration_bookkeeping _ _ _ _ _ _ _ I) as (_ & _ & Hw & _).
  assert (N' : notNegative (Locals.currentPressure st')).
  { rewrite Hp. apply add_notNegative; [exact N|].
    apply mul_notNegative; [|exact HL]. apply positive_notNegative, Hg. }
  split; [|exact N']. rewrite Hw. unfold notNegative in N'. rewrite N', W. reflexivity.
Qed.

Lemma loop_zero_flow p Q all todo index st st' :
  (Q =? 0) = true ->
  finitePositive (CalculationParams.fluidDensity p * GRAVITY) ->
  finitePositive (ENTRY_LOSS_COEFFICIENT * CalculationParams.fluidDensity p) ->
  powOfZero ->
  Forall (fun s => is_nan (areaOf s) = false) todo ->
  loop p Q all todo index st = Ok st' ->
  Locals.currentPressure st' =
    fold_left (fun pressure s =>
                 pressure + CalculationParams.fluidDensity p * GRAVITY * Segment.length s)
      todo (Locals.currentPressure st) /\
  (Locals.totalFrictionLoss st = 0 -> Locals.totalFrictionLoss st' = 0) /\
  (Locals.totalPressureDrop st = 0 -> Locals.totalPressureDrop st' = 0) /\
  (Forall (fun x => JS.strict_eq (SegmentResult.velocity x) 0 = true)
     (Locals.segmentResults st) ->
   Forall (fun x => JS.strict_eq (SegmentResult.velocity x) 0 = true)
     (Locals.segmentResults st')) /\
  (Forall (fun s => notNegative (Segment.length s)) todo ->
   Locals.warnings st = [] -> notNegative (Locals.currentPressure st) ->
   Locals.warnings st' = []).
Proof.
  intros HQ Hg He Hpow. revert index st.
  induction todo as [|seg rest IH]; intros index st HA H; cbn [loop fold_left] in *.
  - injection H as <-. repeat split; auto.
  - destruct (iteration p Q all index seg st) as [st1|] eqn:I; cbn [bind] in H; [|discriminate].
    inversion HA as [|? ? HAseg HArest]; subst.
    pose proof (iteration_zero_flow _ _ _ _ _ _ _ HQ Hg He Hpow HAseg I)
      as (Hp & Hf & Hd & Hv).
    destruct (IH _ _ HArest H) as (IHp & IHf & IHd & IHv & IHw).
    rewrite <- Hp. split; [exact IHp|]. split; [|split; [|split]].
    + intros E. apply IHf. rewrite Hf, E. reflexivity.
    + intros E. apply IHd. rewrite Hd, E. reflexivity.
    + intros F. apply IHv, Hv, F.
    + intros FL W N. inversion FL as [|? ? HLseg HLrest]; subst.
      destruct (iteration_notNegative _ _ _ _ _ _ _ HQ Hg He Hpow HAseg HLseg I W N)
        as (W1 & N1).
      apply IHw; assumption.
Qed.

(** C3 (amended). With a requested flow rate of zero, on inputs whose
    cross-sections are numbers and whose density is positive and finite:
    every reported velocity is zero, the total friction loss is zero, the
    bottomhole pressure is the injection pressure plus the hydrostatic gain
    of every effective segment (in kPa), the maximum flow rate is
    [Infinity] when the available pressure is positive, and there is no
    warning when the injection pressure and the segment lengths are not
    negative. *)
Theorem zero_flow_rule (p : CalculationParams.t) (r : CalculationResults.t) :
  calculatePressureDrop p = Ok r ->
  JS.strict_eq (CalculationParams.flowRate p) 0 = true ->
  powOfZero ->
  numericAreas p ->
  finitePositive (CalculationParams.fluidDensity p * GRAVITY) ->
  finitePositive (ENTRY_LOSS_COEFFICIENT * CalculationParams.fluidDensity p) ->
  exists all,
    buildAllSegments p = Ok all /\
    Forall (fun x => JS.strict_eq (SegmentResult.velocity x) 0 = true)
      (CalculationResults.segments r) /\
    CalculationResults.totalFrictionLoss r = 0 /\
    CalculationResults.bottomPressure r = staticPressure p all / 1000 /\
    ((availablePressureOf p <=? 0) = false ->
     CalculationResults.maxFlowRate r = JS.Infinity) /\
    (notNegative (CalculationParams.injectionPressure p) ->
     Forall (fun s => notNegative (Segment.length s)) (CalculationParams.segments p) ->
     CalculationResults.warnings r = None).
Proof.
  intros H HF Hpow HA Hg He.
  apply calculatePressureDrop_Ok in H. destruct H as (all & st & Hb & Hl & _ & ->).
  pose proof (zero_flow_converts _ HF) as HQ. unfold JS.strict_eq in HQ.
  assert (Hall : Forall (fun s => is_nan (areaOf s) = false) all /\
                 (Forall (fun s => notNegative (Segment.length s))
                    (CalculationParams.segments p) ->
                  Forall (fun s => notNegative (Segment.length s)) all)).
  { destruct (buildAllSegments_cases p) as (B0 & B1 & B2). unfold numericAreas in HA.
    destruct (residualLength p >? 0.1) eqn:R.
    - destruct (CalculationParams.openHoleDiameter p <=? 0) eqn:D.
      + rewrite (B1 eq_refl eq_refl) in Hb. discriminate.
      + rewrite (B2 eq_refl eq_refl) in Hb. injection Hb as <-. split; [exact HA|].
        intros FL. apply Forall_app. split; [exact FL|]. constructor; [|constructor].
        cbn [openHoleSegment Segment.length]. apply threshold_notNegative, R.
    - rewrite (B0 eq_refl) in Hb. injection Hb as <-.
      apply Forall_app in HA. destruct HA as (HA & _). split; [exact HA | auto]. }
  destruct Hall as (HAall & HLall).
  pose proof (loop_zero_flow _ _ _ _ _ _ _ HQ Hg He Hpow HAall Hl)
    as (Hp & Hf & Hd & Hv & Hw).
  exists all. split; [exact Hb|].
  cbn [finish CalculationResults.segments CalculationResults.totalFrictionLoss
       CalculationResults.bottomPressure CalculationResults.maxFlowRate
       CalculationResults.warnings].
  split; [apply Hv; constructor|].
  split; [rewrite (Hf eq_refl); reflexivity|].
  split; [rewrite Hp; reflexivity|].
  split.
  - intros Av. unfold JS.strict_eq. rewrite Av, HQ, orb_true_r. reflexivity.
  - intros Ninj FL. rewrite Hw; [reflexivity | apply HLall, FL | reflexivity |].
    cbn [initialLocals Locals.currentPressure].
    apply mul_notNegative; [exact Ninj | reflexivity].
Qed.

End ZeroFlow.

(** ** The reference library on the tested inputs *)

(** The expectations of [WellHydraulics.test.ts] that are exact. *)
Example engine_tests :
  WellHydraulics.calculateReynolds 2 0.1 1000 0.001 = 200000 /\
  WellHydraulics.calculateReynolds 0.01 0.1 1000 0.001 = 1000 /\
  WellHydraulics.calculateReynolds 2 0.1 1000 0 = 0 /\
  WellHydraulics.calculateReynolds 2 0 1000 0.001 = 0 /\
  WellHydraulics.calculateFrictionFactor (M := ReferenceMath.reference) 0 0.001 = 0 /\
  WellHydraulics.calculateFrictionFactor (M := ReferenceMath.reference) 2000 0.001
    = 64 / 2000 /\
  WellHydraulics.calculatePressureDrop (M := ReferenceMath.reference)
    (withSegments basicParams [Segment.mk 1 0 100 0.046])
    = Throw "Invalid diameter for segment 1. Diameter must be greater than 0." /\
  WellHydraulics.calculatePressureDrop (M := ReferenceMath.reference)
    (CalculationParams.mk [Segment.mk 1 100 100 0.046] 100 5000 15000 1000 0.001 200 0)
    = Throw "Open hole diameter must be a positive value." /\
  (exists r,
     WellHydraulics.calculatePressureDrop (M := ReferenceMath.reference) twoSegmentParams
       = Ok r /\
     map rowOf (CalculationResults.segments r)
       = [(1%nat, 100, 50, 0, 50); (2%nat, 80, 50, 50, 100)] /\
     CalculationResults.maxVelocitySegment r = 2%nat /\
     CalculationResults.actualFlowRate r = 100).
Proof.
  repeat split. eexists. split; [vm_compute; reflexivity|]. repeat split.
Qed.

Lemma reference_powOfZero : powOfZero (M := ReferenceMath.reference).
Proof.
  intros x Hx. cbn [Math_pow ReferenceMath.reference]. unfold ReferenceMath.pow.
  assert (N : is_nan x = false) by float_order.
  change (is_nan 2) with false. change (2 =? 0) with false. change (2 =? 1) with false.
  change (2 =? 2) with true. rewrite N. cbn iota.
  apply zero_SF in Hx. destruct Hx as (s & Hx).
  apply Prim2SF_inj. rewrite FloatAxioms.mul_spec, Hx. destruct s; reflexivity.
Qed.

(** C3: zero flow at the inputs of the zero-flow test of
    [calculatorService.test.ts]. The maximum flow rate is [0], not
    [Infinity]: the available pressure, 5000 kPa + 9810 kPa - 15000 kPa, is
    negative. With a negative injection pressure the same well gets a
    cavitation warning at zero flow. *)
Lemma zero_flow_counterexample :
  (exists r,
     WellHydraulics.calculatePressureDrop (M := ReferenceMath.reference) zeroFlowTestParams
       = Ok r /\
     JS.strict_eq (CalculationParams.flowRate zeroFlowTestParams) 0 = true /\
     WellHydraulics.availablePressureOf zeroFlowTestParams = -190000 /\
     CalculationResults.maxFlowRate r = 0 /\
     JS.strict_eq (CalculationResults.maxFlowRate r) JS.Infinity = false) /\
  (exists r,
     WellHydraulics.calculatePressureDrop (M := ReferenceMath.reference) vacuumParams
       = Ok r /\
     JS.strict_eq (CalculationParams.flowRate vacuumParams) 0 = true /\
     CalculationResults.warnings r = Some [cavitationWarning 0]).
Proof.
  split; eexists; (split; [vm_compute; reflexivity|]); repeat split.
Qed.

(** C3 (amended) on [idleParams], where the available pressure is positive. *)
Lemma zero_flow_rule_witness :
  exists r,
    WellHydraulics.calculatePressureDrop (M := ReferenceMath.reference) idleParams = Ok r /\
    Forall (fun x => JS.strict_eq (SegmentResult.velocity x) 0 = true)
      (CalculationResults.segments r) /\
    CalculationResults.totalFrictionLoss r = 0 /\
    CalculationResults.bottomPressure r = (5000 * 1000 + 1000 * GRAVITY * 100) / 1000 /\
    CalculationResults.maxFlowRate r = JS.Infinity /\
    CalculationResults.warnings r = None.
Proof.
  eexists.
  assert (H : WellHydraulics.calculatePressureDrop (M := ReferenceMath.reference)
                idleParams = Ok _) by (vm_compute; reflexivity).
  destruct (zero_flow_rule (M := ReferenceMath.reference) idleParams _ H)
    as (all & Hb & Hv & Hf & Hp & Hm & Hw).
  - reflexivity.
  - exact reference_powOfZero.
  - repeat constructor.
  - split; reflexivity.
  - split; reflexivity.
  - injection Hb as <-.
    split; [exact H|]. split; [exact Hv|]. split; [exact Hf|]. split; [exact Hp|].
    split; [apply Hm; reflexivity|].
    apply Hw; [reflexivity | repeat constructor].
Defined.

(** C2 on [drivenParams]: positive available pressure, turbulent flow. *)
Lemma maxFlowRate_rule_witness :
  exists st r flowExponent,
    WellHydraulics.march (M := ReferenceMath.reference) drivenParams = Ok st /\
    WellHydraulics.calculatePressureDrop (M := ReferenceMath.reference) drivenParams = Ok r /\
    CalculationResults.totalPressureDrop r = Locals.totalPressureDrop st / 1000 /\
    exponentRule (Locals.frictionLosses st) flowExponent /\
    CalculationResults.maxFlowRate r =
      100 * ReferenceMath.pow (481000 / Locals.totalPressureDrop st) (1 / flowExponent).
Proof.
  eexists.
  assert (H : WellHydraulics.march (M := ReferenceMath.reference) drivenParams = Ok _)
    by (vm_compute; reflexivity).
  destruct (maxFlowRate_rule (M := ReferenceMath.reference) drivenParams _ H)
    as (r & flowExponent & Hr & Hd & He & Hm).
  - repeat constructor.
  - reflexivity.
  - exists r, flowExponent. repeat split; assumption.
Defined.

(** C4 on [openHoleParams]: 100 m of tubing in a 200 m well. *)
Lemma openHole_segment_rule_witness :
  WellHydraulics.buildAllSegments openHoleParams =
  Ok [Segment.mk 1 100 100 0.046; Segment.mk (-1) 150 100 0.5].
Proof.
  apply (openHole_segment_rule (M := ReferenceMath.reference) openHoleParams); reflexivity.
Defined.

(** C5: a user segment with id [-1] is left out of the list. *)
Lemma segment_results_count_counterexample :
  exists r,
    WellHydraulics.calculatePressureDrop (M := ReferenceMath.reference) reservedIdParams
      = Ok r /\
    List.length (CalculationResults.segments r) = 1%nat /\
    List.length (CalculationParams.segments reservedIdParams) = 2%nat.
Proof.
  eexists. split; [vm_compute; reflexivity|]. split; reflexivity.
Qed.

(** C5 (amended) on two segments. *)
Lemma segment_results_count_witness :
  exists r,
    WellHydraulics.calculatePressureDrop (M := ReferenceMath.reference) twoSegmentParams
      = Ok r /\
    List.length (CalculationResults.segments r) = 2%nat /\
    map SegmentResult.segmentNumber (CalculationResults.segments r) = [1; 2]%nat.
Proof.
  eexists.
  assert (H : WellHydraulics.calculatePressureDrop (M := ReferenceMath.reference)
                twoSegmentParams = Ok _) by (vm_compute; reflexivity).
  split; [exact H|].
  destruct (segment_results_count (M := ReferenceMath.reference) twoSegmentParams _ H)
    as (_ & _ & U).
  destruct (U eq_refl) as (L & N & _). split; [exact L | exact N].
Defined.

(** C6: when the first segment carries the reserved id the list does not
    start at depth 0, and nothing keeps the tubing within the well depth. *)
Lemma depth_bookkeeping_counterexample :
  exists r first,
    WellHydraulics.calculatePressureDrop (M := ReferenceMath.reference) reservedIdParams
      = Ok r /\
    nth_error (CalculationResults.segments r) 0 = Some first /\
    SegmentResult.depthFrom first = 50 /\
    SegmentResult.depthTo (last (CalculationResults.segments r) first) = 250 /\
    CalculationParams.wellDepth reservedIdParams = 100 /\
    (SegmentResult.depthTo (last (CalculationResults.segments r) first)
       <=? CalculationParams.wellDepth reservedIdParams) = false.
Proof.
  eexists. eexists. split; [vm_compute; reflexivity|]. repeat split.
Qed.

(** C6 (amended) on two segments. *)
Lemma depth_bookkeeping_witness :
  exists r,
    WellHydraulics.calculatePressureDrop (M := ReferenceMath.reference) twoSegmentParams
      = Ok r /\
    (forall first, nth_error (CalculationResults.segments r) 0 = Some first ->
       SegmentResult.depthFrom first = 0) /\
    (forall i a b,
       nth_error (CalculationResults.segments r) i = Some a ->
       nth_error (CalculationResults.segments r) (S i) = Some b ->
       SegmentResult.depthTo a = SegmentResult.depthFrom b) /\
    (forall d, SegmentResult.depthTo (last (CalculationResults.segments r) d) = 100).
Proof.
  eexists.
  assert (H : WellHydraulics.calculatePressureDrop (M := ReferenceMath.reference)
                twoSegmentParams = Ok _) by (vm_compute; reflexivity).
  split; [exact H|].
  destruct (depth_bookkeeping (M := ReferenceMath.reference) twoSegmentParams _ H eq_refl)
    as (Hhd & Hadj & Hlast & _).
  split; [exact Hhd|]. split; [exact Hadj|].
  intros d. rewrite Hlast; [reflexivity | discriminate].
Defined.

(** C7 on [starvedParams]: the pressure is negative after the second
    segment only. *)
Lemma cavitation_warning_rule_witness :
  exists r,
    WellHydraulics.calculatePressureDrop (M := ReferenceMath.reference) starvedParams
      = Ok r /\
    CalculationResults.warnings r = Some [cavitationWarning 1].
Proof.
  eexists.
  assert (H : WellHydraulics.calculatePressureDrop (M := ReferenceMath.reference)
                starvedParams = Ok _) by (vm_compute; reflexivity).
  split; [exact H|].
  destruct (cavitation_warning_rule (M := ReferenceMath.reference) starvedParams _ H)
    as (all & Hb & _ & Hw & _).
  injection Hb as <-. rewrite Hw. vm_compute. reflexivity.
Defined.

(** ** Flow rate and headroom: two observations *)

(** Without any effective segment the total friction loss is [0] at every
    flow rate. *)
Remark no_segment_no_friction {M : MathLib} (flowRate : float) :
  exists r,
    WellHydraulics.calculatePressureDrop (emptyParams flowRate) = Ok r /\
    CalculationResults.totalFrictionLoss r = 0.
Proof.
  eexists. split; reflexivity.
Qed.

(** Across the laminar limit the flow exponent changes from 1 to 2 and, the
    available pressure being smaller than the pressure drop, the maximum
    flow rate and its ratio to the requested rate both rise with the
    requested rate. *)
Remark headroom_rises_across_laminar_limit :
  exists r1 r2,
    WellHydraulics.calculatePressureDrop (M := ReferenceMath.reference)
      (thresholdParams 15.5) = Ok r1 /\
    WellHydraulics.calculatePressureDrop (M := ReferenceMath.reference)
      (thresholdParams 15.7) = Ok r2 /\
    map SegmentResult.flowRegime (CalculationResults.segments r1) = [Laminar] /\
    map SegmentResult.flowRegime (CalculationResults.segments r2) = [Transitional] /\
    (CalculationResults.totalFrictionLoss r1 <? CalculationResults.totalFrictionLoss r2)
      = true /\
    (CalculationResults.maxFlowRate r1 / 15.5 <? CalculationResults.maxFlowRate r2 / 15.7)
      = true.
Proof.
  eexists. eexists. split; [vm_compute; reflexivity|].
  split; [vm_compute; reflexivity|]. repeat split.
Qed.

(** * Further properties of the engine *)

(** ** Which calculations fail, and how *)

Section Outcome.
Context {M : MathLib}.

Import WellHydraulics.

(** Inside the loop the previous segment is always there to be read. *)
Lemma minorLossAt_defined rho Q all index A V :
  index < List.length all ->
  exists ml, minorLossAt rho Q all index A V = Ok ml.
Proof.
  intros Hi. unfold minorLossAt. destruct index as [|k]; cbn [Nat.eqb Nat.ltb Nat.leb].
  - eexists. reflexivity.
  - unfold elementAt. replace (S k - 1)%nat with k by lia.
    destruct (nth_error all k) as [prev|] eqn:E.
    + cbn [bind].
      destruct ((A >? 0) && (_ >? 0) && (Q >? 0)); [|eexists; reflexivity].
      destruct (A <? _); [eexists; reflexivity|].
      destruct (A >? _); eexists; reflexivity.
    + apply nth_error_None in E. lia.
Qed.

Lemma iteration_outcome p Q all index seg st :
  index < List.length all ->
  match guardOf seg with
  | Valid => exists st', iteration p Q all index seg st = Ok st'
  | BadDiameter => iteration p Q all index seg st = Throw (invalidDiameterError index)
  | BadArea => iteration p Q all index seg st = Throw (invalidAreaError index)
  end.
Proof.
  intros Hi. unfold guardOf, iteration, areaOf. cbv zeta.
  destruct (Segment.diameter seg / 1000 <=? 0); [reflexivity|].
  destruct (PI * Math_pow (Segment.diameter seg / 1000 / 2) 2 <=? 0); [reflexivity|].
  destruct (minorLossAt_defined (CalculationParams.fluidDensity p) Q all index
              (PI * Math_pow (Segment.diameter seg / 1000 / 2) 2)
              (Q / (PI * Math_pow (Segment.diameter seg / 1000 / 2) 2)) Hi) as (ml & E).
  rewrite E. cbn [bind]. eexists. reflexivity.
Qed.

Lemma loop_outcome p Q all todo index st :
  index + List.length todo <= List.length all ->
  match firstInvalid index todo with
  | None => exists st', loop p Q all todo index st = Ok st'
  | Some (i, BadDiameter) => loop p Q all todo index st = Throw (invalidDiameterError i)
  | Some (i, _) => loop p Q all todo index st = Throw (invalidAreaError i)
  end.
Proof.
  revert index st. induction todo as [|seg rest IH]; intros index st Hlen;
    cbn [loop firstInvalid List.length] in *.
  - eexists. reflexivity.
  - assert (Hi : index < List.length all) by lia.
    pose proof (iteration_outcome p Q all index seg st Hi) as O.
    destruct (guardOf seg).
    + destruct O as (st1 & E). rewrite E. cbn [bind]. apply IH. lia.
    + rewrite O. reflexivity.
    + rewrite O. reflexivity.
Qed.

Lemma firstInvalid_spec index todo :
  match firstInvalid index todo with
  | None => Forall (fun s => guardOf s = Valid) todo
  | Some (i, v) =>
      index <= i /\ v <> Valid /\
      (exists s, nth_error todo (i - index) = Some s /\ guardOf s = v) /\
      Forall (fun s => guardOf s = Valid) (firstn (i - index) todo)
  end.
Proof.
  revert index. induction todo as [|seg rest IH]; intros index; cbn [firstInvalid].
  - constructor.
  - destruct (guardOf seg) eqn:G.
    + specialize (IH (S index)). destruct (firstInvalid (S index) rest) as [[i v]|].
      * destruct IH as (Hi & Hv & (s & Hs & Hg) & Hall).
        replace (i - index)%nat with (S (i - S index)) by lia. cbn [nth_error firstn].
        split; [lia|]. split; [exact Hv|]. split; [eauto|]. constructor; assumption.
      * constructor; assumption.
    + rewrite Nat.sub_diag. cbn. split; [lia|]. split; [discriminate|].
      split; [eauto | constructor].
    + rewrite Nat.sub_diag. cbn. split; [lia|]. split; [discriminate|].
      split; [eauto | constructor].
Qed.

(** X1. The calculation fails in three ways only, and only for the reason
    each names: the open-hole error when an open hole is implied and its
    diameter is not positive; otherwise the diameter or area error of the
    first effective segment that fails its guard, with that segment's
    1-based number; otherwise it returns a result. An out-of-range read of
    the previous segment never happens. *)
Theorem calculation_outcome (p : CalculationParams.t) :
  match buildAllSegments p with
  | Throw _ =>
      (residualLength p >? 0.1) = true /\
      (CalculationParams.openHoleDiameter p <=? 0) = true /\
      calculatePressureDrop p = Throw openHoleError
  | Ok all =>
      match firstInvalid 0 all with
      | None =>
          Forall (fun s => guardOf s = Valid) all /\
          exists r, calculatePressureDrop p = Ok r
      | Some (i, v) =>
          v <> Valid /\
          (exists s, nth_error all i = Some s /\ guardOf s = v) /\
          Forall (fun s => guardOf s = Valid) (firstn i all) /\
          calculatePressureDrop p =
            Throw (match v with
                   | BadDiameter => invalidDiameterError i
                   | _ => invalidAreaError i
                   end)
      end
  end.
Proof.
  unfold calculatePressureDrop, march.
  destruct (buildAllSegments_cases p) as (B0 & B1 & B2).
  destruct (buildAllSegments p) as [all|msg] eqn:B.
  - cbn [bind].
    pose proof (loop_outcome p (CalculationParams.flowRate p / SECONDS_PER_DAY) all all 0
                  (initialLocals p) (le_n _)) as O.
    pose proof (firstInvalid_spec 0 all) as S.
    destruct (firstInvalid 0 all) as [[i v]|].
    + destruct S as (_ & Hv & Hs & Hall). rewrite Nat.sub_0_r in Hs, Hall.
      split; [exact Hv|]. split; [exact Hs|]. split; [exact Hall|].
      destruct v; rewrite O; reflexivity.
    + split; [exact S|]. destruct O as (st' & E). rewrite E. cbn [bind]. eauto.
  - destruct (residualLength p >? 0.1).
    + destruct (CalculationParams.openHoleDiameter p <=? 0).
      * specialize (B1 eq_refl eq_refl). injection B1 as ->. auto.
      * specialize (B2 eq_refl eq_refl). discriminate.
    + specialize (B0 eq_refl). discriminate.
Qed.

End Outcome.

(** ** What each row reports *)

Section Reports.
Context {M : MathLib}.

Import WellHydraulics.

(** A successful pass, read field by field. *)
Lemma iteration_report p all index seg st st' :
  iteration p (CalculationParams.flowRate p / SECONDS_PER_DAY) all index seg st = Ok st' ->
  guardOf seg = Valid /\
  Locals.totalFrictionLoss st' = Locals.totalFrictionLoss st + frictionPressureLossOf p seg /\
  Locals.maxVelocity st' =
    (if velocityOf p seg >? Locals.maxVelocity st
     then velocityOf p seg else Locals.maxVelocity st) /\
  Locals.maxVelocitySegment st' =
    (if velocityOf p seg >? Locals.maxVelocity st
     then (index + 1)%nat else Locals.maxVelocitySegment st) /\
  exists x,
    Locals.segmentResults st' =
      Locals.segmentResults st ++ (if isUserSegment seg then [x] else []) /\
    reportsOn p all index seg x /\
    SegmentResult.inletPressure x = Locals.currentPressure st / 1000 /\
    SegmentResult.outletPressure x = Locals.currentPressure st' / 1000.
Proof.
  unfold iteration, guardOf, areaOf. cbv zeta. intros H.
  destruct (Segment.diameter seg / 1000 <=? 0); [discriminate|].
  destruct (PI * Math_pow (Segment.diameter seg / 1000 / 2) 2 <=? 0); [discriminate|].
  destruct (minorLossAt _ _ _ _ _ _) as [ml|] eqn:E in H; [|discriminate].
  cbn [bind] in H. injection H as <-.
  cbn [Locals.totalFrictionLoss Locals.maxVelocity Locals.maxVelocitySegment
       Locals.segmentResults Locals.currentPressure].
  split; [reflexivity|]. split; [reflexivity|]. split; [reflexivity|]. split; [reflexivity|].
  eexists. split.
  - unfold isUserSegment. destruct (negb _); [reflexivity|]. rewrite app_nil_r. reflexivity.
  - split; [|split; reflexivity].
    unfold reportsOn.
    cbn [SegmentResult.segmentNumber SegmentResult.diameter SegmentResult.length
         SegmentResult.velocity SegmentResult.reynoldsNumber SegmentResult.flowRegime
         SegmentResult.frictionFactor SegmentResult.frictionLoss
         SegmentResult.hydrostaticGain SegmentResult.minorLoss].
    repeat (split; [reflexivity|]).
    exists ml. split; [exact E | reflexivity].
Qed.

(** The rows added by a run of passes, each with its segment. *)
Lemma loop_reports p all todo index st st' :
  loop p (CalculationParams.flowRate p / SECONDS_PER_DAY) all todo index st = Ok st' ->
  exists new,
    Locals.segmentResults st' = Locals.segmentResults st ++ new /\
    Forall (fun x => exists k s,
                index <= k /\ nth_error todo (k - index) = Some s /\
                isUserSegment s = true /\ reportsOn p all k s x) new.
Proof.
  revert index st. induction todo as [|seg rest IH]; intros index st H; cbn [loop] in H.
  - injection H as <-. exists []. rewrite app_nil_r. split; [reflexivity | constructor].
  - destruct (iteration p _ all index seg st) as [st1|] eqn:I; cbn [bind] in H; [|discriminate].
    apply iteration_report in I. destruct I as (_ & _ & _ & _ & x & Hx & Rx & _).
    apply IH in H. destruct H as (new & Hnew & Fnew).
    exists ((if isUserSegment seg then [x] else []) ++ new). split.
    + rewrite Hnew, Hx, <- app_assoc. reflexivity.
    + apply Forall_app. split.
      * destruct (isUserSegment seg) eqn:U; constructor; [|constructor].
        exists index, seg. rewrite Nat.sub_diag.
        split; [lia|]. split; [reflexivity|]. split; [exact U | exact Rx].
      * eapply Forall_impl; [|exact Fnew].
        intros y (k & s & Hk & Hs & Hu & Hr). exists k, s.
        replace (k - index)%nat with (S (k - S index)) by lia.
        split; [lia|]. split; [exact Hs|]. split; [exact Hu | exact Hr].
Qed.

(** Every row of a result, with the effective segment it stands for. *)
Lemma result_reports p r :
  calculatePressureDrop p = Ok r ->
  exists all,
    buildAllSegments p = Ok all /\
    Forall (fun x => exists k s,
                nth_error all k = Some s /\ isUserSegment s = true /\
                reportsOn p all k s x)
      (CalculationResults.segments r).
Proof.
  intros H. apply calculatePressureDrop_Ok in H. destruct H as (all & st & Hb & Hl & _ & ->).
  exists all. split; [exact Hb|].
  apply loop_reports in Hl. destruct Hl as (new & Hnew & F).
  cbn [finish CalculationResults.segments]. rewrite Hnew. cbn [initialLocals
    Locals.segmentResults app].
  eapply Forall_impl; [|exact F].
  intros x (k & s & _ & Hs & Hu & Hr). rewrite Nat.sub_0_r in Hs. eauto.
Qed.

End Reports.

(** ** The regime label and the friction factor of a row *)

Section RegimeAndFactor.
Context {M : MathLib}.

Import WellHydraulics.

(** The label of a Reynolds number and the branch the friction factor
    takes for it. *)
Lemma regime_and_factor (Re rr : float) :
  match flowRegimeOf Re with
  | Laminar =>
      (Re <? 2300) = true /\
      calculateFrictionFactor Re rr = (if Re <=? 0 then 0 else 64 / Re)
  | Transitional =>
      (2300 <=? Re) = true /\ (Re <? 4000) = true /\
      calculateFrictionFactor Re rr =
        64 / 2300 + (Re - 2300) / (4000 - 2300) * (swameeJain 4000 rr - 64 / 2300)
  | Turbulent =>
      (Re <? 4000) = false /\
      calculateFrictionFactor Re rr = swameeJain Re rr
  end.
Proof.
  unfold flowRegimeOf, calculateFrictionFactor, calculateTurbulentFriction, swameeJain,
    LAMINAR_FLOW_LIMIT, TURBULENT_FLOW_START, JS.geb. cbv zeta.
  destruct (Re <? 2300) eqn:L.
  - split; reflexivity.
  - destruct (Re <? 4000) eqn:T.
    + assert (G : (2300 <=? Re) = true) by (clear - L T; float_order).
      assert (Z : (Re <=? 0) = false) by (clear - L T; float_order).
      rewrite Z, G. cbn [andb]. repeat split; reflexivity.
    + assert (Z : (Re <=? 0) = false) by (clear - L T; float_order).
      rewrite Z, andb_false_r. split; reflexivity.
Qed.

(** X2. Every row of the per-segment list carries a regime label that
    agrees with the formula its friction factor was computed by: a row
    labelled Laminar has a Reynolds number below 2300 and the factor 64/Re
    (0 when Re <= 0); a row labelled Transitional has 2300 <= Re < 4000 and
    the interpolated factor; a row labelled Turbulent has a Reynolds number
    that is not below 4000 (a NaN among them) and the Swamee-Jain factor of
    its own Reynolds number.  The roughness ratio is that of the segment
    the row is numbered after. *)
Theorem reported_regime_and_factor (p : CalculationParams.t) (r : CalculationResults.t) :
  calculatePressureDrop p = Ok r ->
  exists all,
    buildAllSegments p = Ok all /\
    Forall (fun x =>
      exists s,
        nth_error all (SegmentResult.segmentNumber x - 1) = Some s /\
        let Re := SegmentResult.reynoldsNumber x in
        let rr := Segment.roughness s / (Segment.diameter s / 1000 * 1000) in
        match SegmentResult.flowRegime x with
        | Laminar =>
            (Re <? 2300) = true /\
            SegmentResult.frictionFactor x = (if Re <=? 0 then 0 else 64 / Re)
        | Transitional =>
            (2300 <=? Re) = true /\ (Re <? 4000) = true /\
            SegmentResult.frictionFactor x =
              64 / 2300 + (Re - 2300) / (4000 - 2300) * (swameeJain 4000 rr - 64 / 2300)
        | Turbulent =>
            (Re <? 4000) = false /\
            SegmentResult.frictionFactor x = swameeJain Re rr
        end)
      (CalculationResults.segments r).
Proof.
  intros H. destruct (result_reports p r H) as (all & Hb & F).
  exists all. split; [exact Hb|].
  eapply Forall_impl; [|exact F].
  intros x (k & s & Hs & _ & Hn & _ & _ & _ & HRe & Hreg & Hf & _).
  exists s. rewrite Hn. replace (k + 1 - 1)%nat with k by lia.
  split; [exact Hs|]. cbv zeta.
  rewrite Hreg, Hf, HRe. apply regime_and_factor.
Qed.

End RegimeAndFactor.

(** X2 on the two-segment well: a row labelled Turbulent has a Reynolds
    number that is not below 4000. *)
Lemma reported_regime_and_factor_witness :
  exists r,
    WellHydraulics.calculatePressureDrop (M := ReferenceMath.reference) twoSegmentParams
      = Ok r /\
    Forall (fun x => SegmentResult.flowRegime x = Turbulent ->
                     (SegmentResult.reynoldsNumber x <? 4000) = false)
      (CalculationResults.segments r).
Proof.
  eexists.
  assert (H : WellHydraulics.calculatePressureDrop (M := ReferenceMath.reference)
                twoSegmentParams = Ok _) by (vm_compute; reflexivity).
  split; [exact H|].
  destruct (reported_regime_and_factor (M := ReferenceMath.reference) twoSegmentParams _ H)
    as (all & _ & F).
  eapply Forall_impl; [|exact F].
  intros x (s & _ & Hx) R. cbv zeta in Hx. rewrite R in Hx. apply Hx.
Defined.

(** ** The largest velocity *)

Lemma ltb_step_old m v x : (m <? x) = false -> (m <? v) = true -> (v <=? x) = false.
Proof. intros. float_order. Qed.

Lemma leb_false_ltb_false v x : (v <=? x) = false -> (v <? x) = false.
Proof. intros. float_order. Qed.

Lemma ltb_irrefl v : (v <? v) = false.
Proof. float_order. Qed.

Lemma ltb_trans_true x y z : (x <? y) = true -> (y <? z) = true -> (x <? z) = true.
Proof. intros. float_order. Qed.

(** One update of lines 166-169. *)
Lemma runningMaximum_step vs m k v :
  runningMaximum vs m k ->
  runningMaximum (vs ++ [v])
    (if JS.gtb v m then v else m)
    (if JS.gtb v m then (List.length vs + 1)%nat else k).
Proof.
  intros [F K]. unfold JS.gtb. destruct (m <? v) eqn:C.
  - assert (Hold : Forall (fun x => (v <=? x) = false) vs).
    { eapply Forall_impl; [|exact F]. intros x Hx. cbn beta in *.
      eapply ltb_step_old; eassumption. }
    split.
    + apply Forall_app. split.
      * eapply Forall_impl; [|exact Hold]. intros x. apply leb_false_ltb_false.
      * constructor; [apply ltb_irrefl | constructor].
    + rewrite Nat.add_1_r. split; [|split].
      * rewrite nth_error_app2, Nat.sub_diag by lia. reflexivity.
      * destruct k as [|j].
        -- subst m. exact C.
        -- destruct K as (_ & P & _). eapply ltb_trans_true; eassumption.
      * rewrite firstn_app, Nat.sub_diag, firstn_all. cbn [firstn]. rewrite app_nil_r.
        exact Hold.
  - split.
    + apply Forall_app. split; [exact F|]. constructor; [exact C | constructor].
    + destruct k as [|j]; [exact K|].
      destruct K as (N & P & E).
      assert (J : (j < List.length vs)%nat) by (apply nth_error_Some; congruence).
      split; [|split].
      * rewrite nth_error_app1 by exact J. exact N.
      * exact P.
      * rewrite firstn_app. replace (j - List.length vs)%nat with 0%nat by lia.
        cbn [firstn]. rewrite app_nil_r. exact E.
Qed.

Section MaxVelocity.
Context {M : MathLib}.

Import WellHydraulics.

Lemma loop_runningMaximum p all todo done st st' :
  loop p (CalculationParams.flowRate p / SECONDS_PER_DAY) all todo (List.length done) st
    = Ok st' ->
  runningMaximum (map (velocityOf p) done)
    (Locals.maxVelocity st) (Locals.maxVelocitySegment st) ->
  runningMaximum (map (velocityOf p) (done ++ todo))
    (Locals.maxVelocity st') (Locals.maxVelocitySegment st').
Proof.
  revert done st. induction todo as [|seg rest IH]; intros done st H R; cbn [loop] in H.
  - injection H as <-. rewrite app_nil_r. exact R.
  - destruct (iteration p _ all (List.length done) seg st) as [st1|] eqn:I;
      cbn [bind] in H; [|discriminate].
    apply iteration_report in I. destruct I as (_ & _ & Hm & Hk & _).
    replace (done ++ seg :: rest) with ((done ++ [seg]) ++ rest)
      by (rewrite <- app_assoc; reflexivity).
    apply (IH (done ++ [seg]) st1).
    + rewrite length_app. cbn [List.length]. rewrite Nat.add_1_r. exact H.
    + rewrite Hm, Hk, map_app. cbn [map].
      rewrite <- (length_map (velocityOf p) done).
      apply runningMaximum_step. exact R.
Qed.

(** The largest velocity of a result and its position, over the whole
    effective list. *)
Lemma result_runningMaximum p r all :
  calculatePressureDrop p = Ok r ->
  buildAllSegments p = Ok all ->
  runningMaximum (map (velocityOf p) all)
    (CalculationResults.maxSegmentVelocity r) (CalculationResults.maxVelocitySegment r).
Proof.
  intros H Hb. apply calculatePressureDrop_Ok in H.
  destruct H as (all' & st & Hb' & Hl & _ & ->).
  rewrite Hb in Hb'. injection Hb' as <-.
  apply (loop_runningMaximum p all all [] (initialLocals p) st Hl).
  split; [constructor | reflexivity].
Qed.

(** X3. The largest velocity of a result is taken over every effective
    segment, the open hole included: no segment's velocity exceeds
    [maxSegmentVelocity].  [maxVelocitySegment] is 0 exactly when no
    velocity was positive, and then [maxSegmentVelocity] is 0; otherwise it
    is the 1-based position of the first segment whose velocity is the
    (positive) maximum, no earlier segment reaching it. *)
Theorem max_velocity_tracking (p : CalculationParams.t) (r : CalculationResults.t)
    (all : list Segment.t) :
  calculatePressureDrop p = Ok r ->
  buildAllSegments p = Ok all ->
  let m := CalculationResults.maxSegmentVelocity r in
  Forall (fun s => (m <? velocityOf p s) = false) all /\
  match CalculationResults.maxVelocitySegment r with
  | O => m = 0
  | S j =>
      (exists s, nth_error all j = Some s /\ velocityOf p s = m) /\
      (0 <? m) = true /\
      Forall (fun s => (m <=? velocityOf p s) = false) (firstn j all)
  end.
Proof.
  intros H Hb. destruct (result_runningMaximum p r all H Hb) as [F K].
  cbv zeta. split.
  - rewrite Forall_map in F. exact F.
  - destruct (CalculationResults.maxVelocitySegment r) as [|j]; [exact K|].
    destruct K as (N & P & E). split; [|split; [exact P|]].
    + rewrite nth_error_map in N. destruct (nth_error all j) as [s|]; [|discriminate].
      exists s. split; [reflexivity|]. cbn [option_map] in N. injection N as N. exact N.
    + rewrite firstn_map, Forall_map in E. exact E.
Qed.

End MaxVelocity.

(** X3 on the two-segment well: the narrower second segment carries the
    largest velocity. *)
Lemma max_velocity_tracking_witness :
  exists r,
    WellHydraulics.calculatePressureDrop (M := ReferenceMath.reference) twoSegmentParams
      = Ok r /\
    CalculationResults.maxVelocitySegment r = 2%nat /\
    Forall (fun s => (CalculationResults.maxSegmentVelocity r
                        <? velocityOf (M := ReferenceMath.reference) twoSegmentParams s)
                     = false)
      (CalculationParams.segments twoSegmentParams).
Proof.
  eexists.
  assert (H : WellHydraulics.calculatePressureDrop (M := ReferenceMath.reference)
                twoSegmentParams = Ok _) by (vm_compute; reflexivity).
  split; [exact H|]. split; [vm_compute; reflexivity|].
  apply (max_velocity_tracking (M := ReferenceMath.reference) twoSegmentParams _ _ H).
  vm_compute. reflexivity.
Defined.

(** ** Totals and the pressure from row to row *)

Section Totals.
Context {M : MathLib}.

Import WellHydraulics.

Lemma isUserSegment_openHoleSegment p : isUserSegment (openHoleSegment p) = false.
Proof. reflexivity. Qed.

(** The tubing is marched first; the open hole, when there is one, adds no
    row. *)
Lemma tubing_first p r :
  calculatePressureDrop p = Ok r ->
  exists tubing st,
    loop p (CalculationParams.flowRate p / SECONDS_PER_DAY)
      (match buildAllSegments p with Ok all => all | Throw _ => [] end)
      (CalculationParams.segments p) 0 (initialLocals p) = Ok tubing /\
    r = finish p st /\
    Locals.segmentResults st = Locals.segmentResults tubing /\
    ((residualLength p >? 0.1) = false -> st = tubing).
Proof.
  intros H. apply calculatePressureDrop_Ok in H. destruct H as (all & st & Hb & Hl & _ & ->).
  rewrite Hb. destruct (buildAllSegments_cases p) as (B0 & B1 & B2).
  destruct (residualLength p >? 0.1) eqn:R.
  - destruct (CalculationParams.openHoleDiameter p <=? 0) eqn:O.
    + specialize (B1 eq_refl eq_refl). congruence.
    + specialize (B2 eq_refl eq_refl). rewrite Hb in B2. injection B2 as ->.
      pose proof Hl as Hl'. rewrite loop_app in Hl'.
      destruct (loop p _ _ (CalculationParams.segments p) 0 (initialLocals p))
        as [tubing|] eqn:T; cbn [bind] in Hl'; [|discriminate].
      exists tubing, st. split; [reflexivity|]. split; [reflexivity|].
      split; [|discriminate].
      cbn [loop] in Hl'.
      destruct (iteration p _ _ _ (openHoleSegment p) tubing) as [st1|] eqn:I;
        cbn [bind] in Hl'; [|discriminate].
      injection Hl' as <-.
      apply iteration_report in I. destruct I as (_ & _ & _ & _ & x & Hx & _).
      rewrite isUserSegment_openHoleSegment, app_nil_r in Hx. exact Hx.
  - specialize (B0 eq_refl). rewrite Hb in B0. injection B0 as ->.
    exists st, st. repeat split; auto.
Qed.

Lemma loop_frictionSum p all todo index st st' :
  loop p (CalculationParams.flowRate p / SECONDS_PER_DAY) all todo index st = Ok st' ->
  Locals.totalFrictionLoss st' = frictionSum p todo (Locals.totalFrictionLoss st) /\
  map SegmentResult.frictionLoss (Locals.segmentResults st') =
    map SegmentResult.frictionLoss (Locals.segmentResults st)
    ++ map (fun s => frictionPressureLossOf p s / 1000) (filter isUserSegment todo).
Proof.
  revert index st. induction todo as [|seg rest IH]; intros index st H; cbn [loop] in H.
  - injection H as <-. cbn. rewrite app_nil_r. split; reflexivity.
  - destruct (iteration p _ all index seg st) as [st1|] eqn:I; cbn [bind] in H; [|discriminate].
    apply iteration_report in I.
    destruct I as (_ & Hf & _ & _ & x & Hx & Rx & _).
    destruct Rx as (_ & _ & _ & _ & _ & _ & _ & Hl & _).
    apply IH in H. destruct H as (Ht & Hr).
    unfold frictionSum in *. cbn [fold_left filter]. rewrite Ht, Hf, Hr, Hx.
    split; [reflexivity|].
    destruct (isUserSegment seg); cbn [map app].
    + rewrite map_app, <- app_assoc. cbn [map app]. rewrite Hl. reflexivity.
    + rewrite app_nil_r. reflexivity.
Qed.

(** X4. The total friction loss is the friction of every effective
    segment, the open hole included, added up in Pa from the surface down
    and divided by 1000 once; the per-segment list carries the friction of
    the listed segments only, each divided by 1000 on its own. *)
Theorem total_friction_rule (p : CalculationParams.t) (r : CalculationResults.t)
    (all : list Segment.t) :
  calculatePressureDrop p = Ok r ->
  buildAllSegments p = Ok all ->
  CalculationResults.totalFrictionLoss r = frictionSum p all 0 / 1000 /\
  map SegmentResult.frictionLoss (CalculationResults.segments r) =
    map (fun s => frictionPressureLossOf p s / 1000) (filter isUserSegment all).
Proof.
  intros H Hb. apply calculatePressureDrop_Ok in H.
  destruct H as (all' & st & Hb' & Hl & _ & ->).
  rewrite Hb in Hb'. injection Hb' as <-.
  apply loop_frictionSum in Hl. destruct Hl as (Ht & Hr).
  cbn [finish CalculationResults.totalFrictionLoss CalculationResults.segments].
  rewrite Ht, Hr. split; reflexivity.
Qed.

Lemma loop_pressureChain p all todo index st st' :
  Forall (fun s => isUserSegment s = true) todo ->
  loop p (CalculationParams.flowRate p / SECONDS_PER_DAY) all todo index st = Ok st' ->
  exists new,
    Locals.segmentResults st' = Locals.segmentResults st ++ new /\
    pressureChain (Locals.currentPressure st / 1000) new
      (Locals.currentPressure st' / 1000).
Proof.
  intros U. revert index st.
  induction U as [|seg rest Hu U IH]; intros index st H; cbn [loop] in H.
  - injection H as <-. exists []. rewrite app_nil_r. split; reflexivity.
  - destruct (iteration p _ all index seg st) as [st1|] eqn:I; cbn [bind] in H; [|discriminate].
    apply iteration_report in I.
    destruct I as (_ & _ & _ & _ & x & Hx & _ & Hin & Hout).
    apply IH in H. destruct H as (new & Hnew & C).
    rewrite Hu in Hx. exists (x :: new). split.
    + rewrite Hnew, Hx, <- app_assoc. reflexivity.
    + cbn [pressureChain]. split; [exact Hin|]. rewrite Hout. exact C.
Qed.

(** X5. When no tubing segment carries the reserved id -1, the rows pass
    the pressure on without a gap: the first row starts at
    [injectionPressure * 1000 / 1000], every other row starts at the outlet
    pressure of the row before it, and the last row ends at the pressure at
    the end of the tubing.  Without an open-hole section that pressure is
    the reported bottom pressure. *)
Theorem pressure_chain (p : CalculationParams.t) (r : CalculationResults.t) :
  calculatePressureDrop p = Ok r ->
  Forall (fun s => isUserSegment s = true) (CalculationParams.segments p) ->
  exists tubingOutlet,
    pressureChain (CalculationParams.injectionPressure p * 1000 / 1000)
      (CalculationResults.segments r) tubingOutlet /\
    ((residualLength p >? 0.1) = false ->
     CalculationResults.bottomPressure r = tubingOutlet).
Proof.
  intros H U. destruct (tubing_first p r H) as (tubing & st & Ht & -> & Hs & Hn).
  destruct (loop_pressureChain _ _ _ _ _ _ U Ht) as (new & Hnew & C).
  exists (Locals.currentPressure tubing / 1000).
  cbn [finish CalculationResults.segments CalculationResults.bottomPressure].
  split.
  - rewrite Hs, Hnew. exact C.
  - intros R. rewrite (Hn R). reflexivity.
Qed.

End Totals.

(** X4 on the well with an open-hole section: one row, two terms in the
    total. *)
Lemma total_friction_rule_witness :
  exists r,
    WellHydraulics.calculatePressureDrop (M := ReferenceMath.reference) openHoleParams
      = Ok r /\
    List.length (CalculationResults.segments r) = 1%nat /\
    CalculationResults.totalFrictionLoss r =
      (0 + frictionPressureLossOf (M := ReferenceMath.reference) openHoleParams
             (Segment.mk 1 100 100 0.046)
         + frictionPressureLossOf (M := ReferenceMath.reference) openHoleParams
             (openHoleSegment openHoleParams)) / 1000.
Proof.
  eexists.
  assert (H : WellHydraulics.calculatePressureDrop (M := ReferenceMath.reference)
                openHoleParams = Ok _) by (vm_compute; reflexivity).
  split; [exact H|]. split; [vm_compute; reflexivity|].
  refine (proj1 (total_friction_rule (M := ReferenceMath.reference) openHoleParams _
                   [Segment.mk 1 100 100 0.046; openHoleSegment openHoleParams] H _)).
  vm_compute. reflexivity.
Defined.

(** X5 on the two-segment well: the second row starts where the first
    ends, and the last ends at the bottom pressure. *)
Lemma pressure_chain_witness :
  exists r,
    WellHydraulics.calculatePressureDrop (M := ReferenceMath.reference) twoSegmentParams
      = Ok r /\
    pressureChain 5000 (CalculationResults.segments r)
      (CalculationResults.bottomPressure r).
Proof.
  eexists.
  assert (H : WellHydraulics.calculatePressureDrop (M := ReferenceMath.reference)
                twoSegmentParams = Ok _) by (vm_compute; reflexivity).
  split; [exact H|].
  destruct (pressure_chain (M := ReferenceMath.reference) twoSegmentParams _ H)
    as (out & C & B).
  - repeat constructor.
  - rewrite (B eq_refl). exact C.
Defined.

(** ** Minor losses of the rows *)

Section MinorLoss.
Context {M : MathLib}.

Import WellHydraulics.

Lemma gtb_irrefl x : JS.gtb x x = false.
Proof. unfold JS.gtb. apply ltb_irrefl. Qed.

(** At the head of the well only the entry loss is charged. *)
Lemma minorLossAt_entry rho Q all A V :
  minorLossAt rho Q all 0 A V = Ok (0 + ENTRY_LOSS_COEFFICIENT * rho * Math_pow V 2 / 2).
Proof. reflexivity. Qed.

(** Below it, nothing is charged between equal diameters or without a
    positive flow. *)
Lemma minorLossAt_none rho Q all k prev s V ml :
  nth_error all k = Some prev ->
  Segment.diameter prev = Segment.diameter s \/ JS.gtb Q 0 = false ->
  minorLossAt rho Q all (S k) (areaOf s) V = Ok ml ->
  ml = 0.
Proof.
  intros Hp Hc. unfold minorLossAt, elementAt. cbv zeta.
  cbn [Nat.eqb Nat.ltb Nat.leb]. rewrite Nat.sub_1_r. cbn [Nat.pred]. rewrite Hp.
  cbn [bind]. destruct Hc as [E|E].
  - rewrite E. fold (areaOf s).
    rewrite ltb_irrefl, gtb_irrefl.
    destruct (_ && _); intros H; injection H as <-; reflexivity.
  - rewrite E, andb_false_r. intros H; injection H as <-; reflexivity.
Qed.

(** X6. The minor loss of a row: the row of the first effective segment
    carries the entry loss [0.5 * density * V^2 / 2] of its own velocity
    and nothing else; a later row carries no minor loss at all when its
    segment has the diameter of the segment above it, or when the flow
    rate is not positive. *)
Theorem minor_loss_rule (p : CalculationParams.t) (r : CalculationResults.t)
    (all : list Segment.t) :
  calculatePressureDrop p = Ok r ->
  buildAllSegments p = Ok all ->
  Forall (fun x =>
    match SegmentResult.segmentNumber x with
    | 0%nat => False
    | 1%nat =>
        SegmentResult.minorLoss x =
          (0 + 0.5 * CalculationParams.fluidDensity p
               * Math_pow (SegmentResult.velocity x) 2 / 2) / 1000
    | S (S k) =>
        exists prev s,
          nth_error all k = Some prev /\ nth_error all (S k) = Some s /\
          (Segment.diameter prev = Segment.diameter s \/
           (CalculationParams.flowRate p / 86400 >? 0) = false ->
           SegmentResult.minorLoss x = 0)
    end)
    (CalculationResults.segments r).
Proof.
  intros H Hb. destruct (result_reports p r H) as (all' & Hb' & F).
  rewrite Hb in Hb'. injection Hb' as <-.
  eapply Forall_impl; [|exact F].
  intros x (k & s & Hs & _ & Hn & _ & _ & Hv & _ & _ & _ & _ & _ & ml & Hml & Hx).
  rewrite Hn, Nat.add_1_r. destruct k as [|k].
  - rewrite minorLossAt_entry in Hml. injection Hml as <-.
    rewrite Hx, Hv. reflexivity.
  - assert (K : (k < List.length all)%nat).
    { assert (S k < List.length all)%nat by (apply nth_error_Some; congruence). lia. }
    destruct (nth_error all k) as [prev|] eqn:Hp;
      [|apply nth_error_None in Hp; lia].
    exists prev, s. split; [reflexivity|]. split; [exact Hs|].
    intros Hc. rewrite Hx.
    rewrite (minorLossAt_none _ _ _ _ _ _ _ _ Hp Hc Hml). reflexivity.
Qed.

(** X7. With a viscosity of zero every row is reported with a Reynolds
    number of 0, the label Laminar and a friction factor of 0. *)
Theorem inviscid_rows (p : CalculationParams.t) (r : CalculationResults.t) :
  calculatePressureDrop p = Ok r ->
  (CalculationParams.fluidViscosity p =? 0) = true ->
  Forall (fun x =>
    SegmentResult.reynoldsNumber x = 0 /\
    SegmentResult.flowRegime x = Laminar /\
    SegmentResult.frictionFactor x = 0)
    (CalculationResults.segments r).
Proof.
  intros H Z. destruct (result_reports p r H) as (all & _ & F).
  eapply Forall_impl; [|exact F].
  intros x (k & s & _ & _ & _ & _ & _ & _ & HRe & Hreg & Hf & _).
  assert (R : reynoldsOf p s = 0).
  { unfold reynoldsOf, calculateReynolds, JS.strict_eq. rewrite Z. reflexivity. }
  rewrite HRe, Hreg, Hf, R. repeat split; reflexivity.
Qed.

End MinorLoss.

(** X6 on the two-segment well: the first row carries the entry loss. *)
Lemma minor_loss_rule_witness :
  exists r,
    WellHydraulics.calculatePressureDrop (M := ReferenceMath.reference) twoSegmentParams
      = Ok r /\
    Forall (fun x => SegmentResult.segmentNumber x = 1%nat ->
              SegmentResult.minorLoss x =
                (0 + 0.5 * 1000 * ReferenceMath.pow (SegmentResult.velocity x) 2 / 2) / 1000)
      (CalculationResults.segments r).
Proof.
  eexists.
  assert (H : WellHydraulics.calculatePressureDrop (M := ReferenceMath.reference)
                twoSegmentParams = Ok _) by (vm_compute; reflexivity).
  split; [exact H|].
  eapply Forall_impl;
    [|exact (minor_loss_rule (M := ReferenceMath.reference) twoSegmentParams _ _ H eq_refl)].
  intros x Hx N. cbn beta in Hx. rewrite N in Hx. exact Hx.
Defined.

(** X7 on a well whose fluid has no viscosity. *)
Lemma inviscid_rows_witness :
  exists r,
    WellHydraulics.calculatePressureDrop (M := ReferenceMath.reference)
      (CalculationParams.mk [Segment.mk 1 100 100 0.046] 100 5000 15000 1000 0 100 150)
      = Ok r /\
    map SegmentResult.flowRegime (CalculationResults.segments r) = [Laminar].
Proof.
  eexists.
  assert (H : WellHydraulics.calculatePressureDrop (M := ReferenceMath.reference)
      (CalculationParams.mk [Segment.mk 1 100 100 0.046] 100 5000 15000 1000 0 100 150)
      = Ok _) by (vm_compute; reflexivity).
  split; [exact H|].
  pose proof (inviscid_rows (M := ReferenceMath.reference) _ _ H eq_refl) as F.
  cbn [CalculationResults.segments] in F |- *.
  inversion F as [|x l (_ & R & _) F' E]. subst. inversion F'. subst.
  cbn [map]. rewrite R. reflexivity.
Defined.

(** ** What the result does not depend on *)

Section Independence.
Context {M : MathLib}.

Import WellHydraulics.

Lemma elementAt_sameGeometry all all' i :
  Forall2 sameGeometry all all' ->
  match elementAt all i, elementAt all' i with
  | Ok a, Ok b => sameGeometry a b
  | Throw m, Throw m' => m = m'
  | _, _ => False
  end.
Proof.
  intros F. revert i. unfold elementAt.
  induction F as [|a b l l' Hab F IH]; intros [|i]; cbn [nth_error]; auto.
  apply IH.
Qed.

Lemma minorLossAt_sameGeometry rho Q all all' index A V :
  Forall2 sameGeometry all all' ->
  minorLossAt rho Q all index A V = minorLossAt rho Q all' index A V.
Proof.
  intros F. unfold minorLossAt. cbv zeta.
  destruct (Nat.ltb 0 index); [|reflexivity].
  pose proof (elementAt_sameGeometry all all' (index - 1) F) as E.
  destruct (elementAt all (index - 1)) as [a|m], (elementAt all' (index - 1)) as [b|m'];
    try contradiction; cbn [bind].
  - destruct E as (Ed & _). rewrite Ed. reflexivity.
  - rewrite E. reflexivity.
Qed.

Lemma iteration_sameGeometry p Q all all' index s s' st :
  Forall2 sameGeometry all all' -> sameGeometry s s' ->
  iteration p Q all index s st = iteration p Q all' index s' st.
Proof.
  intros F (Ed & El & Er & Eu). unfold iteration. cbv zeta.
  unfold isUserSegment in Eu.
  rewrite (minorLossAt_sameGeometry _ _ all all' _ _ _ F), Ed, El, Er, Eu.
  reflexivity.
Qed.

Lemma loop_sameGeometry p Q all all' todo todo' index st :
  Forall2 sameGeometry all all' -> Forall2 sameGeometry todo todo' ->
  loop p Q all todo index st = loop p Q all' todo' index st.
Proof.
  intros F T. revert index st.
  induction T as [|s s' l l' Hs T IH]; intros index st; cbn [loop]; [reflexivity|].
  rewrite (iteration_sameGeometry p Q all all' index s s' st F Hs).
  destruct (iteration p Q all' index s' st); cbn [bind]; [apply IH | reflexivity].
Qed.

Lemma totalSegmentLength_sameGeometry segs segs' :
  Forall2 sameGeometry segs segs' ->
  totalSegmentLength segs = totalSegmentLength segs'.
Proof.
  unfold totalSegmentLength. generalize 0 at 2 4.
  intros acc F. revert acc.
  induction F as [|s s' l l' (_ & El & _) F IH]; intros acc; cbn [fold_left];
    [reflexivity|].
  rewrite El. apply IH.
Qed.

Lemma sameGeometry_refl s : sameGeometry s s.
Proof. repeat split. Qed.

(** The march reads the parameters' segments only where it builds the
    effective list. *)
Lemma loop_withSegments p segs Q all todo index st :
  loop (withSegments p segs) Q all todo index st = loop p Q all todo index st.
Proof.
  revert index st. induction todo as [|s rest IH]; intros index st; cbn [loop];
    [reflexivity|].
  change (iteration (withSegments p segs) Q all index s st)
    with (iteration p Q all index s st).
  destruct (iteration p Q all index s st); cbn [bind]; [apply IH | reflexivity].
Qed.

(** X8. Segment ids are read only to compare them with the reserved id -1:
    replacing the tubing segments by segments of the same diameters,
    lengths and roughnesses, whose ids are -1 exactly where they were
    before, changes nothing in the outcome, result or error. *)
Theorem ids_do_not_matter (p : CalculationParams.t) (segments' : list Segment.t) :
  Forall2 sameGeometry (CalculationParams.segments p) segments' ->
  calculatePressureDrop (withSegments p segments') = calculatePressureDrop p.
Proof.
  intros F.
  assert (L : openHoleLength (withSegments p segments') = openHoleLength p).
  { unfold openHoleLength. cbn [withSegments CalculationParams.wellDepth
      CalculationParams.segments].
    rewrite (totalSegmentLength_sameGeometry _ _ F). reflexivity. }
  unfold calculatePressureDrop, march. cbv zeta.
  unfold buildAllSegments. cbv zeta. rewrite L.
  cbn [withSegments CalculationParams.openHoleDiameter CalculationParams.segments
       CalculationParams.flowRate].
  assert (E : forall all all', Forall2 sameGeometry all all' ->
            bind (loop (withSegments p segments')
                    (CalculationParams.flowRate p / SECONDS_PER_DAY) all' all' 0
                    (initialLocals (withSegments p segments')))
                 (fun st => Ok (finish (withSegments p segments') st))
            = bind (loop p (CalculationParams.flowRate p / SECONDS_PER_DAY) all all 0
                      (initialLocals p))
                   (fun st => Ok (finish p st))).
  { intros all all' Fa. rewrite loop_withSegments.
    rewrite (loop_sameGeometry p _ all all' all all' 0 _ Fa Fa). reflexivity. }
  destruct (openHoleLength p >? 0.1).
  - destruct (CalculationParams.openHoleDiameter p <=? 0); [reflexivity|].
    cbn [bind]. apply E. apply Forall2_app; [exact F|].
    constructor; [apply sameGeometry_refl | constructor].
  - cbn [bind]. apply E. exact F.
Qed.

(** The march does not read the target pressure. *)
Lemma march_withBottomholePressure p b : march (withBottomholePressure p b) = march p.
Proof.
  unfold march. cbv zeta.
  change (buildAllSegments (withBottomholePressure p b)) with (buildAllSegments p).
  destruct (buildAllSegments p) as [all|]; cbn [bind]; [|reflexivity].
  change (initialLocals (withBottomholePressure p b)) with (initialLocals p).
  change (CalculationParams.flowRate (withBottomholePressure p b))
    with (CalculationParams.flowRate p).
  generalize (initialLocals p), 0%nat. generalize all at 2 4.
  intros todo. induction todo as [|s rest IH]; intros st index; cbn [loop]; [reflexivity|].
  change (iteration (withBottomholePressure p b)) with (iteration p).
  destruct (iteration p _ all index s st); cbn [bind]; [apply IH | reflexivity].
Qed.

(** X9. The target (bottomhole) pressure enters the maximum flow rate and
    nothing else: with any other target pressure the calculation fails
    with the same error or gives the same rows, totals, bottom pressure,
    largest velocity and warnings. *)
Theorem bottomholePressure_only_in_maxFlowRate (p : CalculationParams.t) (b : float) :
  match calculatePressureDrop p, calculatePressureDrop (withBottomholePressure p b) with
  | Ok r, Ok r' =>
      CalculationResults.segments r' = CalculationResults.segments r /\
      CalculationResults.totalFrictionLoss r' = CalculationResults.totalFrictionLoss r /\
      CalculationResults.totalPressureDrop r' = CalculationResults.totalPressureDrop r /\
      CalculationResults.bottomPressure r' = CalculationResults.bottomPressure r /\
      CalculationResults.actualFlowRate r' = CalculationResults.actualFlowRate r /\
      CalculationResults.maxSegmentVelocity r' = CalculationResults.maxSegmentVelocity r /\
      CalculationResults.maxVelocitySegment r' = CalculationResults.maxVelocitySegment r /\
      CalculationResults.warnings r' = CalculationResults.warnings r
  | Throw m, Throw m' => m' = m
  | _, _ => False
  end.
Proof.
  unfold calculatePressureDrop. rewrite march_withBottomholePressure.
  destruct (march p) as [st|m]; cbn [bind]; [|reflexivity].
  repeat split.
Qed.

End Independence.

(** X8 on the two-segment well, its segments renumbered 7 and 9. *)
Lemma ids_do_not_matter_witness :
  WellHydraulics.calculatePressureDrop (M := ReferenceMath.reference)
    (withSegments twoSegmentParams [Segment.mk 7 100 50 0.046; Segment.mk 9 80 50 0.046])
  = WellHydraulics.calculatePressureDrop (M := ReferenceMath.reference) twoSegmentParams.
Proof.
  apply (ids_do_not_matter (M := ReferenceMath.reference) twoSegmentParams).
  repeat constructor.
Defined.

(** ** The friction factor at its edges *)

(** Numbers that compare equal are the same number, zeros apart. *)
Lemma eqb_eq_nonzero x c :
  (x =? c) = true -> (c =? 0) = false -> x = c.
Proof.
  intros E Z. apply eqb_true_iff in E.
  apply not_true_iff_false in Z. rewrite eqb_true_iff in Z.
  unfold feq, fkey in *. change (Prim2SF 0) with (S754_zero false) in Z.
  apply Prim2SF_inj.
  destruct (Prim2SF x) as [s|s| |s m e], (Prim2SF c) as [s'|s'| |s' m' e'];
    cbn in *; try tauto; try (exfalso; apply Z; repeat split; reflexivity);
    try (destruct s, s'; cbn in *; try lia; try reflexivity).
  all: destruct E as (_ & E2 & E3); f_equal; lia.
Qed.

(** [Math.max(rr, 1e-10)] is [1e-10] for every [rr] up to it. *)
Lemma Math_max_floor rr : (rr <=? 1e-10) = true -> JS.Math_max rr 1e-10 = 1e-10.
Proof.
  intros H. unfold JS.Math_max.
  assert (N : is_nan rr = false) by (clear - H; float_order).
  rewrite N. change (is_nan 1e-10) with false. cbv iota.
  destruct (rr <? 1e-10) eqn:L; [reflexivity|].
  assert (E : (rr =? 1e-10) = true) by (clear - H L; float_order).
  apply eqb_eq_nonzero in E; [|reflexivity]. subst rr. reflexivity.
Qed.

Section FrictionEdges.
Context {M : MathLib}.

Import WellHydraulics.

(** X10. A relative roughness at or below 1e-10 - zero and negative values
    among them - gives the friction factor of the floor value 1e-10 at
    every Reynolds number. *)
Theorem roughness_floor (Re rr : float) :
  (rr <=? 1e-10) = true ->
  calculateFrictionFactor Re rr = calculateFrictionFactor Re 1e-10.
Proof.
  intros H. unfold calculateFrictionFactor, calculateTurbulentFriction. cbv zeta.
  rewrite (Math_max_floor rr H), (Math_max_floor 1e-10 eq_refl). reflexivity.
Qed.

End FrictionEdges.

(** X10 at a roughness of zero. *)
Lemma roughness_floor_witness :
  WellHydraulics.calculateFrictionFactor (M := ReferenceMath.reference) 5000 0
  = WellHydraulics.calculateFrictionFactor (M := ReferenceMath.reference) 5000 1e-10.
Proof.
  apply (roughness_floor (M := ReferenceMath.reference) 5000 0). reflexivity.
Defined.

Lemma isFinite_SF d :
  match Prim2SF d with
  | S754_zero _ | S754_finite _ _ _ => isFinite d = true
  | _ => isFinite d = false
  end.
Proof.
  unfold isFinite. rewrite FloatAxioms.ltb_spec, FloatAxioms.abs_spec.
  change (Prim2SF infinity) with (S754_infinity false).
  destruct (Prim2SF d) as [s|s| |s m e]; reflexivity.
Qed.

Lemma is_nan_SF x : Prim2SF x = S754_nan -> is_nan x = true.
Proof.
  intros H. unfold is_nan. rewrite FloatAxioms.eqb_spec, H. reflexivity.
Qed.

(** Adding a zero-fold of a number to a non-zero finite number: nothing
    changes when the number is finite, and the sum is NaN otherwise. *)
Lemma add_zero_fold c d s m e :
  Prim2SF c = S754_finite s m e ->
  if isFinite d then c + 0 * d = c else is_nan (c + 0 * d) = true.
Proof.
  intros Hc. pose proof (isFinite_SF d) as F.
  assert (P : Prim2SF (c + 0 * d) =
              SF64add (Prim2SF c) (SF64mul (S754_zero false) (Prim2SF d))).
  { rewrite FloatAxioms.add_spec, FloatAxioms.mul_spec. reflexivity. }
  rewrite Hc in P.
  destruct (Prim2SF d) as [sd|sd| |sd md ed]; rewrite F.
  - apply Prim2SF_inj. rewrite P, Hc. reflexivity.
  - apply is_nan_SF. rewrite P. reflexivity.
  - apply is_nan_SF. rewrite P. reflexivity.
  - apply Prim2SF_inj. rewrite P, Hc. reflexivity.
Qed.

Section LaminarLimit.
Context {M : MathLib}.

Import WellHydraulics.

(** X11. At a Reynolds number of exactly 2300 the interpolation takes
    over from the laminar formula without a jump: the friction factor is
    64/2300, the value of 64/Re there, whenever the difference between the
    Swamee-Jain value at 4000 and 64/2300 is finite; when it is not, the
    factor is NaN. *)
Theorem friction_factor_at_laminar_limit (rr : float) :
  if isFinite (swameeJain 4000 rr - 64 / 2300)
  then calculateFrictionFactor 2300 rr = 64 / 2300
  else is_nan (calculateFrictionFactor 2300 rr) = true.
Proof.
  unfold calculateFrictionFactor, calculateTurbulentFriction, swameeJain,
    LAMINAR_FLOW_LIMIT, TURBULENT_FLOW_START, JS.geb. cbv zeta.
  change (2300 <=? 0) with false. change (2300 <? 2300) with false.
  change ((2300 <=? 2300) && (2300 <? 4000)) with true. cbv iota.
  change ((2300 - 2300) / (4000 - 2300)) with 0.
  eapply add_zero_fold. vm_compute. reflexivity.
Qed.

End LaminarLimit.

(** * Properties of the user interface *)

(** ** The progress bar *)

Lemma is_nan_true_SF x : is_nan x = true <-> Prim2SF x = S754_nan.
Proof.
  rewrite <- not_false_iff_true, is_nan_false_iff. unfold feq, fkey.
  destruct (Prim2SF x) as [s|s| |s m e]; cbn.
  - split; [intros H; exfalso; apply H; repeat split | discriminate].
  - split; [intros H; exfalso; apply H; destruct s; repeat split | discriminate].
  - split; [reflexivity | tauto].
  - split; [intros H; exfalso; apply H; destruct s; repeat split | discriminate].
Qed.

Lemma percentage_of_nan value max :
  is_nan (value / max) = true ->
  is_nan (ProgressIndicator.percentage value max) = true.
Proof.
  intros H. unfold ProgressIndicator.percentage.
  assert (N : is_nan (value / max * 100) = true).
  { apply is_nan_true_SF. apply is_nan_true_SF in H.
    rewrite FloatAxioms.mul_spec, H. reflexivity. }
  unfold Math_min, JS.Math_max. rewrite N, N. exact N.
Qed.

Lemma clamp_cases x :
  let c := Math_min (JS.Math_max x 0) 100 in
  (is_nan x = true -> c = x) /\
  ((x <=? 0) = true -> c = 0) /\
  ((0 <? x) = true -> (x <? 100) = true -> c = x) /\
  ((100 <=? x) = true -> c = 100).
Proof.
  cbv zeta. unfold Math_min, JS.Math_max.
  change (is_nan 0) with false. change (is_nan 100) with false.
  repeat split.
  - intros N. rewrite N, N. reflexivity.
  - intros L. assert (N : is_nan x = false) by (clear - L; float_order). rewrite N.
    destruct (x <? 0) eqn:A; [reflexivity|].
    assert (B : (0 <? x) = false) by (clear - L; float_order). rewrite B.
    destruct (JS.is_neg_zero x) eqn:Z; [reflexivity|].
    rewrite N.
    assert (C : (x <? 100) = true) by (clear - L; float_order). rewrite C.
    assert (E : (x =? 0) = true) by (clear - L A; float_order).
    apply zero_SF in E. destruct E as (s & E).
    apply Prim2SF_inj. rewrite E. destruct s; [|reflexivity].
    exfalso. revert Z. unfold JS.is_neg_zero. rewrite FloatAxioms.classify_spec, E.
    discriminate.
  - intros P L. assert (N : is_nan x = false) by (clear - L; float_order). rewrite N.
    assert (A : (x <? 0) = false) by (clear - P; float_order). rewrite A, P, N, L.
    reflexivity.
  - intros G. assert (N : is_nan x = false) by (clear - G; float_order). rewrite N.
    assert (A : (x <? 0) = false) by (clear - G; float_order).
    assert (P : (0 <? x) = true) by (clear - G; float_order). rewrite A, P, N.
    assert (L : (x <? 100) = false) by (clear - G; float_order). rewrite L.
    destruct (100 <? x) eqn:H; [reflexivity|].
    destruct (JS.is_neg_zero x) eqn:Z; [|reflexivity].
    assert (E : (x =? 100) = true) by (clear - G H; float_order).
    apply eqb_eq_nonzero in E; [exact E | reflexivity].
Qed.

(** X12. The percentage of a progress bar is NaN when [value / max * 100]
    is NaN, and lies between 0 and 100 otherwise: 0 for a ratio that is
    not positive, 100 for one of 100 or more, else the ratio itself. *)
Theorem percentage_clamp (value max : float) :
  let x := value / max * 100 in
  let pct := ProgressIndicator.percentage value max in
  (is_nan x = true -> is_nan pct = true) /\
  (is_nan x = false -> (0 <=? pct) = true /\ (pct <=? 100) = true) /\
  ((x <=? 0) = true -> pct = 0) /\
  ((0 <? x) = true -> (x <? 100) = true -> pct = x) /\
  ((100 <=? x) = true -> pct = 100).
Proof.
  cbv zeta. unfold ProgressIndicator.percentage.
  generalize (value / max * 100). intros x.
  destruct (clamp_cases x) as (C1 & C2 & C3 & C4). cbv zeta in *.
  split; [intros N; rewrite (C1 N); exact N|].
  split; [|split; [exact C2 | split; [exact C3 | exact C4]]].
  intros N.
  destruct (x <=? 0) eqn:A; [rewrite (C2 eq_refl); split; reflexivity|].
  destruct (100 <=? x) eqn:B; [rewrite (C4 eq_refl); split; reflexivity|].
  assert (P : (0 <? x) = true) by (clear - N A; float_order).
  assert (L : (x <? 100) = true) by (clear - N B; float_order).
  rewrite (C3 P L). split; clear - P L; float_order.
Qed.

(** X12 at a quarter of the maximum. *)
Lemma percentage_clamp_witness : ProgressIndicator.percentage 50 200 = 25.
Proof.
  apply (proj1 (proj2 (proj2 (proj2 (percentage_clamp 50 200))))); reflexivity.
Defined.

(** ** The results tab after a calculation *)

Lemma div_zero_zero a z : (a =? 0) = true -> (z =? 0) = true -> is_nan (a / z) = true.
Proof.
  rewrite !zero_SF. intros (s & Ha) (t & Hz).
  apply is_nan_true_SF. rewrite FloatAxioms.div_spec, Ha, Hz. reflexivity.
Qed.

Lemma mul_zero_2 a : (a =? 0) = true -> (a * 2 =? 0) = true.
Proof.
  rewrite !zero_SF. intros (s & Ha).
  exists (xorb s false). rewrite FloatAxioms.mul_spec, Ha. reflexivity.
Qed.

Lemma positive_div_zero a : (0 <? a) = true -> a / 0 = infinity.
Proof.
  rewrite ltb_true_iff. unfold flt, fkey. change (Prim2SF 0) with (S754_zero false).
  intros H. apply Prim2SF_inj. rewrite FloatAxioms.div_spec.
  change (Prim2SF 0) with (S754_zero false).
  change (Prim2SF infinity) with (S754_infinity false).
  destruct (Prim2SF a) as [s|s| |s m e]; cbn in H; try destruct s; cbn in H;
    try lia; try tauto; reflexivity.
Qed.

Lemma zero_leb a : (a =? 0) = true -> (a <=? 0) = true /\ (0 <? a) = false.
Proof. intros H. split; float_order. Qed.

Lemma zero_infinity a : (a =? 0) = true -> (a <=? infinity) = true /\ (infinity <? a) = false.
Proof. intros H. split; float_order. Qed.

Lemma positive_not_leb a : (0 <? a) = true -> (a <=? 0) = false.
Proof. intros H. float_order. Qed.

Section ResultsShown.
Context {M : MathLib}.

(** At a flow rate of zero the maximum flow rate is 0 or Infinity. *)
Lemma finish_zero_flow p st :
  (CalculationParams.flowRate p =? 0) = true ->
  CalculationResults.maxFlowRate (WellHydraulics.finish p st) = 0 \/
  CalculationResults.maxFlowRate (WellHydraulics.finish p st) = infinity.
Proof.
  intros Z. unfold WellHydraulics.finish. cbv zeta. cbn [CalculationResults.maxFlowRate].
  destruct (WellHydraulics.availablePressureOf p <=? 0); [left; reflexivity|].
  right. unfold JS.strict_eq.
  rewrite (zero_div_positive _ SECONDS_PER_DAY Z eq_refl), orb_true_r. reflexivity.
Qed.

(** X13. After a calculation at a flow rate of zero the flow-capacity bar
    of the results tab has no percentage: its maximum is 0 whether the
    maximum flow rate is 0 or Infinity, and the percentage of 0 out of 0
    is NaN.  The flow-rate card is good and no suggestion is shown. *)
Theorem zero_flow_capacity_bar (p : CalculationParams.t) (r : CalculationResults.t) :
  CalculatorService.calculatePressureDrop p = Ok r ->
  (CalculationParams.flowRate p =? 0) = true ->
  is_nan (ResultsTab.flowCapacityPercentage r) = true /\
  ResultsTab.flowRateStatus r = ResultsTab.good /\
  ResultsTab.showsFlowRateSuggestion r = false.
Proof.
  intros H Z.
  change (WellHydraulics.calculatePressureDrop p = Ok r) in H.
  apply calculatePressureDrop_Ok in H. destruct H as (all & st & _ & _ & _ & ->).
  unfold ResultsTab.flowCapacityPercentage, ResultsTab.flowCapacityMax,
    ResultsTab.flowRateStatus, ResultsTab.showsFlowRateSuggestion, JS.gtb.
  change (CalculationResults.actualFlowRate (WellHydraulics.finish p st))
    with (CalculationParams.flowRate p).
  destruct (finish_zero_flow p st Z) as [E|E]; rewrite E.
  - change (isFinite 0) with true. cbv iota.
    destruct (zero_leb _ Z) as (L & G). rewrite L, G.
    split; [|split; reflexivity].
    apply percentage_of_nan. apply div_zero_zero; [exact Z | reflexivity].
  - change (isFinite infinity) with false. cbv iota.
    destruct (zero_infinity _ Z) as (L & G). rewrite L, G.
    split; [|split; reflexivity].
    apply percentage_of_nan. apply div_zero_zero; [exact Z | apply mul_zero_2; exact Z].
Qed.

(** X14. When the available pressure is not positive and a positive flow
    is requested, the maximum flow rate is 0 and the results tab shows it
    as follows: the flow-rate card is in error, the suggestion is shown
    (offering a flow rate of 0), the flow-capacity bar is red and full, and
    the health score is 85 at most. *)
Theorem exhausted_pressure_shown (p : CalculationParams.t) (r : CalculationResults.t)
    (bottomholePressure : float) :
  CalculatorService.calculatePressureDrop p = Ok r ->
  (WellHydraulics.availablePressureOf p <=? 0) = true ->
  (0 <? CalculationParams.flowRate p) = true ->
  CalculationResults.maxFlowRate r = 0 /\
  ResultsTab.flowRateStatus r = ResultsTab.error /\
  ResultsTab.showsFlowRateSuggestion r = true /\
  ResultsTab.flowCapacityColor r = ResultsTab.red /\
  ResultsTab.flowCapacityPercentage r = 100 /\
  (App.systemHealthScore r bottomholePressure <=? 85) = true.
Proof.
  intros H A P.
  change (WellHydraulics.calculatePressureDrop p = Ok r) in H.
  apply calculatePressureDrop_Ok in H. destruct H as (all & st & _ & _ & _ & ->).
  assert (E : CalculationResults.maxFlowRate (WellHydraulics.finish p st) = 0).
  { unfold WellHydraulics.finish. cbv zeta. cbn [CalculationResults.maxFlowRate].
    rewrite A. reflexivity. }
  unfold ResultsTab.flowCapacityPercentage, ResultsTab.flowCapacityMax,
    ResultsTab.flowRateStatus, ResultsTab.showsFlowRateSuggestion,
    ResultsTab.flowCapacityColor, App.systemHealthScore, JS.gtb, JS.strict_eq.
  cbv zeta.
  change (CalculationResults.actualFlowRate (WellHydraulics.finish p st))
    with (CalculationParams.flowRate p).
  rewrite E. change (isFinite 0) with true. change (0 * 0.9) with 0.
  change (0 =? JS.Infinity) with false.
  rewrite P, (positive_not_leb _ P). cbn [negb andb].
  split; [reflexivity|]. split; [reflexivity|]. split; [reflexivity|].
  split; [reflexivity|]. split.
  - unfold ProgressIndicator.percentage. rewrite (positive_div_zero _ P). reflexivity.
  - destruct (VELOCITY_ERROR_LIMIT <? _); [|destruct (VELOCITY_WARNING_LIMIT <? _)];
      destruct (_ - bottomholePressure <? 0); reflexivity.
Qed.

End ResultsShown.

(** X13 on the idle well. *)
Lemma zero_flow_capacity_bar_witness :
  exists r,
    CalculatorService.calculatePressureDrop (M := ReferenceMath.reference) idleParams = Ok r /\
    is_nan (ResultsTab.flowCapacityPercentage r) = true.
Proof.
  eexists.
  assert (H : CalculatorService.calculatePressureDrop (M := ReferenceMath.reference)
                idleParams = Ok _) by (vm_compute; reflexivity).
  split; [exact H|].
  apply (zero_flow_capacity_bar (M := ReferenceMath.reference) idleParams _ H).
  reflexivity.
Defined.

(** X14 on the basic well, whose target pressure leaves nothing to drive
    the flow. *)
Lemma exhausted_pressure_shown_witness :
  exists r,
    CalculatorService.calculatePressureDrop (M := ReferenceMath.reference) basicParams = Ok r /\
    ResultsTab.flowCapacityPercentage r = 100 /\
    ResultsTab.showsFlowRateSuggestion r = true.
Proof.
  eexists.
  assert (H : CalculatorService.calculatePressureDrop (M := ReferenceMath.reference)
                basicParams = Ok _) by (vm_compute; reflexivity).
  split; [exact H|].
  destruct (exhausted_pressure_shown (M := ReferenceMath.reference) basicParams _ 15000 H)
    as (_ & _ & S & _ & B & _); [reflexivity | reflexivity |].
  split; [exact B | exact S].
Defined.

(** ** The form and the engine *)

Section FormAndEngine.
Context {M : MathLib}.

(** The message of a failed calculation, read back. *)
Lemma calculatePressureDrop_Throw p message :
  WellHydraulics.calculatePressureDrop p = Throw message ->
  (message = openHoleError /\
   (WellHydraulics.openHoleLength p >? 0.1) = true /\
   (CalculationParams.openHoleDiameter p <=? 0) = true) \/
  (exists i, message = invalidDiameterError i \/ message = invalidAreaError i).
Proof.
  unfold WellHydraulics.calculatePressureDrop, WellHydraulics.march,
    WellHydraulics.buildAllSegments. cbv zeta.
  destruct (WellHydraulics.openHoleLength p >? 0.1).
  - destruct (CalculationParams.openHoleDiameter p <=? 0).
    + cbn [bind]. intros H. injection H as <-. left. repeat split.
    + cbn [bind]. intros H. right.
      match type of H with
      | context [WellHydraulics.loop ?p ?Q ?all ?all 0 ?st] =>
          pose proof (loop_outcome p Q all all 0 st (le_n _)) as O
      end.
      destruct (firstInvalid 0 _) as [[i v]|].
      * exists i. destruct v; rewrite O in H; cbn [bind] in H; injection H as <-; auto.
      * destruct O as (st' & O). rewrite O in H. discriminate.
  - cbn [bind]. intros H. right.
    pose proof (loop_outcome p (CalculationParams.flowRate p / SECONDS_PER_DAY)
                  (CalculationParams.segments p) (CalculationParams.segments p) 0
                  (WellHydraulics.initialLocals p) (le_n _)) as O.
    destruct (firstInvalid 0 _) as [[i v]|].
    + exists i. destruct v; rewrite O in H; cbn [bind] in H; injection H as <-; auto.
    + destruct O as (st' & O). rewrite O in H. discriminate.
Qed.

Lemma when_nil c k : App.when c k = [] -> c = false.
Proof. destruct c; [discriminate | reflexivity]. Qed.

(** A number that is neither NaN nor at most 0 is its own [x || 0]. *)
Lemma or_else_positive x d :
  is_nan x = false -> (x <=? 0) = false -> JS.or_else x d = x.
Proof.
  intros N P. unfold JS.or_else, JS.truthy. rewrite N.
  assert (Z : (x =? 0) = false) by (clear - N P; float_order).
  rewrite Z. reflexivity.
Qed.

(** X15. Whatever the form holds, a calculation started from it does not
    end with the engine's open-hole message: while the implied open hole
    lacks a positive diameter the form has an error and the engine is not
    called.  The only messages the engine can answer with are those of its
    two per-segment guards. *)
Theorem form_calculation_errors (f : App.Fields) (message : string) :
  App.performCalculations f = App.CalculationError message ->
  message <> openHoleError /\
  exists i, message = invalidDiameterError i \/ message = invalidAreaError i.
Proof.
  unfold App.performCalculations.
  destruct (App.validate f) as [|k ks] eqn:V; cbn [List.length Nat.ltb Nat.leb];
    [|discriminate].
  change (CalculatorService.calculatePressureDrop (App.paramsOf f))
    with (WellHydraulics.calculatePressureDrop (App.paramsOf f)).
  destruct (WellHydraulics.calculatePressureDrop (App.paramsOf f)) as [r|m] eqn:C;
    [discriminate|].
  intros H. injection H as ->.
  destruct (calculatePressureDrop_Throw _ _ C) as [(-> & L & D)|(i & E)].
  - exfalso. unfold App.validate in V. cbv zeta in V.
    repeat (apply app_eq_nil in V; destruct V as (? & V)).
    match goal with
    | W : App.when (_ && _) App.openHoleDiameterKey = [] |- _ =>
        apply when_nil in W; rename W into O
    end.
    change (WellHydraulics.openHoleLength (App.paramsOf f))
      with (JS.Math_max 0
              (JS.or_else (App.wellDepth f) 0
               - fold_left (fun sum seg => sum + JS.or_else (Segment.length seg) 0)
                   (App.segments f) 0)) in L.
    rewrite L in O. cbn [andb] in O. apply orb_false_elim in O. destruct O as (N & P).
    cbn [App.paramsOf CalculationParams.openHoleDiameter] in D.
    rewrite (or_else_positive _ 0 N P) in D. congruence.
  - split; [|exists i; exact E].
    destruct E as [-> | ->]; unfold invalidDiameterError, invalidAreaError, openHoleError;
      cbn [String.append]; discriminate.
Qed.

End FormAndEngine.

(** X15 on a form that passes validation with a diameter too small to
    survive the conversion to metres. *)
Lemma form_calculation_errors_witness :
  App.validate
    (App.mkFields 100 100 5000 15000 14000 1000 0.001 150
       [Segment.mk 1 1e-323 100 0.046]) = [] /\
  App.performCalculations (M := ReferenceMath.reference)
    (App.mkFields 100 100 5000 15000 14000 1000 0.001 150
       [Segment.mk 1 1e-323 100 0.046])
    = App.CalculationError (invalidDiameterError 0) /\
  invalidDiameterError 0 <> openHoleError.
Proof.
  assert (H : App.performCalculations (M := ReferenceMath.reference)
    (App.mkFields 100 100 5000 15000 14000 1000 0.001 150
       [Segment.mk 1 1e-323 100 0.046])
    = App.CalculationError (invalidDiameterError 0)) by (vm_compute; reflexivity).
  split; [vm_compute; reflexivity|]. split; [exact H|].
  exact (proj1 (form_calculation_errors (M := ReferenceMath.reference) _ _ H)).
Defined.

(** ** The erosion alert *)

Lemma exceeds_through m v : (m <? v) = false -> is_nan m = false -> (20 <? v) = true ->
  (20 <? m) = true.
Proof. intros. float_order. Qed.

Lemma positive_not_nan m : (0 <? m) = true -> is_nan m = false.
Proof. intros. float_order. Qed.

Lemma zero_not_above_20 : (20 <? 0) = false.
Proof. reflexivity. Qed.

Section ErosionAlert.
Context {M : MathLib}.

(** X16. The erosion alert is shown exactly when the fluid is faster than
    20 m/s in some effective segment, the open hole included; the segment
    it names is then the first of the fastest ones - no segment above it
    reaches its velocity - and the velocity it shows is that segment's. *)
Theorem erosion_alert_rule (p : CalculationParams.t) (r : CalculationResults.t)
    (all : list Segment.t) :
  CalculatorService.calculatePressureDrop p = Ok r ->
  WellHydraulics.buildAllSegments p = Ok all ->
  (Alerts.showsErosionAlert r = true <->
   Exists (fun s => (velocityOf p s >? 20) = true) all) /\
  (Alerts.showsErosionAlert r = true ->
   exists j s,
     CalculationResults.maxVelocitySegment r = S j /\
     nth_error all j = Some s /\
     velocityOf p s = CalculationResults.maxSegmentVelocity r /\
     Forall (fun s' => (velocityOf p s <=? velocityOf p s') = false) (firstn j all)).
Proof.
  intros H Hb. change (WellHydraulics.calculatePressureDrop p = Ok r) in H.
  destruct (result_runningMaximum p r all H Hb) as [F K].
  unfold Alerts.showsErosionAlert, VELOCITY_WARNING_LIMIT, JS.gtb.
  assert (Named : (20 <? CalculationResults.maxSegmentVelocity r) = true ->
    exists j s,
      CalculationResults.maxVelocitySegment r = S j /\
      nth_error all j = Some s /\
      velocityOf p s = CalculationResults.maxSegmentVelocity r /\
      Forall (fun s' => (velocityOf p s <=? velocityOf p s') = false) (firstn j all)).
  { intros A. destruct (CalculationResults.maxVelocitySegment r) as [|j].
    - rewrite K in A. discriminate.
    - destruct K as (N & P & E).
      rewrite nth_error_map in N. destruct (nth_error all j) as [s|] eqn:Hs; [|discriminate].
      cbn [option_map] in N. injection N as N.
      exists j, s. split; [reflexivity|]. split; [exact Hs|]. split; [exact N|].
      rewrite firstn_map, Forall_map in E. rewrite N. exact E. }
  split; [split|exact Named].
  - intros A. destruct (Named A) as (j & s & _ & Hs & Hv & _).
    apply Exists_exists. exists s. split; [eapply nth_error_In; exact Hs|].
    rewrite Hv. exact A.
  - intros Ex. apply Exists_exists in Ex. destruct Ex as (s & Hin & Hv).
    rewrite Forall_map, Forall_forall in F. specialize (F s Hin). cbn beta in F.
    assert (Nm : is_nan (CalculationResults.maxSegmentVelocity r) = false).
    { destruct (CalculationResults.maxVelocitySegment r) as [|j].
      - rewrite K. reflexivity.
      - destruct K as (_ & P & _). apply positive_not_nan. exact P. }
    eapply exceeds_through; eassumption.
Qed.

End ErosionAlert.

(** X16 on a well whose second, narrower segment runs at almost 30 m/s. *)
Lemma erosion_alert_rule_witness :
  exists r,
    CalculatorService.calculatePressureDrop (M := ReferenceMath.reference)
      (CalculationParams.mk [Segment.mk 1 100 10 0.046; Segment.mk 2 50 90 0.046]
         5000 5000 15000 1000 0.001 100 150) = Ok r /\
    Alerts.showsErosionAlert r = true /\
    exists j, CalculationResults.maxVelocitySegment r = S j.
Proof.
  eexists.
  assert (H : CalculatorService.calculatePressureDrop (M := ReferenceMath.reference)
      (CalculationParams.mk [Segment.mk 1 100 10 0.046; Segment.mk 2 50 90 0.046]
         5000 5000 15000 1000 0.001 100 150) = Ok _) by (vm_compute; reflexivity).
  split; [exact H|]. split; [vm_compute; reflexivity|].
  destruct (proj2 (erosion_alert_rule (M := ReferenceMath.reference) _ _ _ H eq_refl))
    as (j & s & E & _); [vm_compute; reflexivity|].
  exists j. exact E.
Defined.

(** ** The colour of the health score *)

(** X17. The colour of the health score in the header, by what the
    results tab shows.  There are three lesser findings: a velocity
    warning, a bottom pressure below the target, and a flow above 90 % of
    the maximum.  The score is green with at most one of them and no
    velocity error; red with a velocity error and any of them, or with all
    three; yellow otherwise. *)
Theorem health_colour_rule (r : CalculationResults.t) (bottomholePressure : float) :
  let deficit := CalculationResults.bottomPressure r - bottomholePressure <? 0 in
  Header.scoreColor (App.systemHealthScore r bottomholePressure) =
    match ResultsTab.maxVelocityStatus r, deficit, ResultsTab.flowCapacityColor r with
    | ResultsTab.good, false, _ => Header.green
    | ResultsTab.good, true, ResultsTab.red => Header.yellow
    | ResultsTab.good, true, _ => Header.green
    | ResultsTab.warning, false, ResultsTab.red => Header.yellow
    | ResultsTab.warning, false, _ => Header.green
    | ResultsTab.warning, true, ResultsTab.red => Header.red
    | ResultsTab.warning, true, _ => Header.yellow
    | ResultsTab.error, false, ResultsTab.red => Header.red
    | ResultsTab.error, false, _ => Header.yellow
    | ResultsTab.error, true, _ => Header.red
    end.
Proof.
  cbv zeta.
  unfold App.systemHealthScore, ResultsTab.maxVelocityStatus, ResultsTab.flowCapacityColor.
  cbv zeta.
  destruct (_ >? VELOCITY_ERROR_LIMIT); [|destruct (_ >? VELOCITY_WARNING_LIMIT)];
    destruct (_ - bottomholePressure <? 0);
    destruct (negb _ && _); reflexivity.
Qed.

(** ** Rows and the well depth *)

Lemma flat_map_nil {A B} (g : A -> list B) (l : list A) :
  flat_map g l = [] -> Forall (fun a => g a = []) l.
Proof.
  induction l as [|a l IH]; cbn [flat_map]; intros H; constructor.
  - apply app_eq_nil in H. tauto.
  - apply IH. apply app_eq_nil in H. tauto.
Qed.

(** On lengths that are neither 0 nor NaN the total the engine computes is
    the plain sum. *)
Lemma totalSegmentLength_sumLengths segs :
  Forall (fun s => JS.truthy (Segment.length s) = true) segs ->
  WellHydraulics.totalSegmentLength segs = sumLengths segs.
Proof.
  unfold WellHydraulics.totalSegmentLength, sumLengths. generalize 0 at 2 3.
  intros acc F. revert acc.
  induction F as [|s l Hs F IH]; intros acc; cbn [fold_left]; [reflexivity|].
  unfold JS.or_else at 2. rewrite Hs. apply IH.
Qed.

Section RowsWithinWell.
Context {M : MathLib}.

(** X18. A result the form shows never has a row that ends below the well
    depth: when the form has no error and no segment carries the id -1,
    the depth at which the last row ends is the plain sum of the segment
    lengths, and the well depth handed to the engine is not less than
    it. *)
Theorem rows_within_well (f : App.Fields) (r : CalculationResults.t) :
  App.performCalculations f = App.Results r ->
  forallb isUserSegment (App.segments f) = true ->
  forall d, CalculationResults.segments r <> [] ->
    SegmentResult.depthTo (last (CalculationResults.segments r) d)
      = sumLengths (App.segments f) /\
    (CalculationParams.wellDepth (App.paramsOf f)
       <? SegmentResult.depthTo (last (CalculationResults.segments r) d)) = false.
Proof.
  unfold App.performCalculations.
  destruct (App.validate f) as [|k ks] eqn:V; cbn [List.length Nat.ltb Nat.leb];
    [|discriminate].
  change (CalculatorService.calculatePressureDrop (App.paramsOf f))
    with (WellHydraulics.calculatePressureDrop (App.paramsOf f)).
  destruct (WellHydraulics.calculatePressureDrop (App.paramsOf f)) as [r'|m] eqn:C;
    [|discriminate].
  intros H U d Hne. injection H as ->.
  destruct (segment_rows_user _ _ C U) as (_ & _ & Hlast).
  cbv zeta in Hlast. rewrite (Hlast d Hne).
  split; [reflexivity|].
  unfold App.validate in V. cbv zeta in V.
  repeat (apply app_eq_nil in V; destruct V as (? & V)).
  apply when_nil in V.
  match goal with
  | W : flat_map _ _ = [] |- _ => apply flat_map_nil in W; rename W into S
  end.
  assert (T : Forall (fun s => JS.truthy (Segment.length s) = true) (App.segments f)).
  { eapply Forall_impl; [|exact S]. intros s Hs. cbn beta in Hs.
    apply app_eq_nil in Hs. destruct Hs as (_ & Hs).
    apply app_eq_nil in Hs. destruct Hs as (Hs & _).
    apply when_nil in Hs. apply orb_false_elim in Hs. destruct Hs as (Hs & _).
    apply negb_false_iff in Hs. exact Hs. }
  cbn [App.paramsOf CalculationParams.wellDepth CalculationParams.segments].
  rewrite <- (totalSegmentLength_sumLengths _ T).
  exact V.
Qed.

End RowsWithinWell.

(** X18 on the form as it opens, with the default fields. *)
Lemma rows_within_well_witness :
  exists r,
    App.performCalculations (M := ReferenceMath.reference)
      (App.mkFields 100 400 5000 15000 14000 1000 0.001 150
         [Segment.mk 1 100.5 150 0.046; Segment.mk 2 76.0 250 0.046]) = App.Results r /\
    (400 <? SegmentResult.depthTo
              (last (CalculationResults.segments r)
                 (SegmentResult.mk 0 0 0 0 0 0 0 Laminar 0 0 0 0 0 0 0))) = false.
Proof.
  eexists.
  assert (H : App.performCalculations (M := ReferenceMath.reference)
      (App.mkFields 100 400 5000 15000 14000 1000 0.001 150
         [Segment.mk 1 100.5 150 0.046; Segment.mk 2 76.0 250 0.046]) = App.Results _)
    by (vm_compute; reflexivity).
  split; [exact H|].
  apply (rows_within_well (M := ReferenceMath.reference) _ _ H eq_refl).
  discriminate.
Defined.
